(** * centrifuge-fsm: a broker node, an HTTP front door and four clients

    A shallow embedding of [main.go].  The program is glue around three
    libraries (the centrifuge broker, the centrifuge-go client, zerolog),
    so the embedding keeps the program's own code as executable
    definitions and treats the libraries and the Go runtime as the
    environment:

    - every function and closure of the program is a block in a state
      monad with panics over the state of the process;
    - the calls the program makes into the broker, the HTTP server, the
      client library, the WaitGroup and the signal package are recorded
      in a trace, and what it logs in a log; the set-up of the logger
      and the registrations of handlers on clients and subscriptions
      are not entries of the trace (the handlers are kept on the client
      or subscription they are registered on);
    - every result or event that a library hands back (the error of a
      call, the pair returned by [NewSubscription], a callback being run,
      a signal) is an input of the model;
    - [main] is cut at its blocking and fallible calls into program
      points, and the process is a transition system whose labels are the
      steps of [main] and the events delivered to the program.  A block
      run by a label is atomic: the blocks only log, register hooks and
      move the WaitGroup counter, none of which is torn by interleaving.

    What is assumed of Go and of the libraries, each where it is used:
    a panic that nothing recovers ends the process (the program has no
    [recover]); [wg.Add] panics when the counter goes negative and
    [wg.Wait] blocks until it is zero; [signal.Notify] relays without
    blocking into a channel of capacity one; zerolog's [Panic] level
    panics after logging; a method of [*Subscription] that stores a
    handler dereferences its receiver. *)

From Stdlib Require Import String Ascii List ZArith Bool Lia DecimalString.
Import ListNotations.

#[local] Open Scope string_scope.
#[local] Open Scope Z_scope.

(** ** Go values *)

(** A non-nil [error], identified with the text of [err.Error()]. *)
Definition GoError := string.

(** [%d] of a loop index or of a code. *)
Definition itoa (n : nat) : string := NilZero.string_of_uint (Nat.to_uint n).

(** ** The global logger *)

Inductive Level := InfoLevel | ErrorLevel | PanicLevel.

Record LogEntry := mkLog { level : Level; message : string }.

(** ** HTTP requests and their contexts *)

(** [centrifuge.Credentials]; the program only ever sets [UserID]. *)
Record Credentials := mkCred { UserID : string; ExpireAt : Z; CredInfo : string }.

Inductive CtxKey := credentialsContextKey | otherKey (name : string).
Inductive CtxVal := credVal (c : Credentials) | otherVal (v : string).

(** A [context.Context] is a chain of key/value frames, newest first;
    the empty chain is [context.Background()]. *)
Definition Context := list (CtxKey * CtxVal).

Definition Background : Context := [].

Definition ctxkey_eqb (a b : CtxKey) : bool :=
  match a, b with
  | credentialsContextKey, credentialsContextKey => true
  | otherKey x, otherKey y => String.eqb x y
  | _, _ => false
  end.

(** [ctx.Value(key)]: the newest frame with that key. *)
Fixpoint Value (ctx : Context) (k : CtxKey) : option CtxVal :=
  match ctx with
  | [] => None
  | (k', v) :: rest => if ctxkey_eqb k' k then Some v else Value rest k
  end.

(** [context.WithValue]. *)
Definition WithValue (ctx : Context) (k : CtxKey) (v : CtxVal) : Context :=
  (k, v) :: ctx.

(** [centrifuge.SetCredentials] and [centrifuge.GetCredentials]. *)
Definition SetCredentials (ctx : Context) (cred : Credentials) : Context :=
  WithValue ctx credentialsContextKey (credVal cred).

Definition GetCredentials (ctx : Context) : option Credentials :=
  match Value ctx credentialsContextKey with
  | Some (credVal c) => Some c
  | _ => None
  end.

Record Request := mkRequest {
  Method : string;
  URL : string;
  Header : list (string * list string);
  Body : string;
  ctx : option Context          (* the unexported field; [None] is nil *)
}.

(** [r.Context()]: the background context when none was set. *)
Definition RContext (r : Request) : Context :=
  match ctx r with
  | Some c => c
  | None => Background
  end.

(** [r.WithContext(c)]: a shallow copy of [r] carrying [c]. *)
Definition WithContext (r : Request) (c : Context) : Request :=
  {| Method := Method r; URL := URL r; Header := Header r; Body := Body r;
     ctx := Some c |}.

(** An [http.ResponseWriter] is a handle owned by the HTTP server. *)
Definition ResponseWriter := nat.

(** ** Events and replies of the broker (server side)

    Payloads ([[]byte]) are only ever turned into strings by the
    program, so they are strings here. *)

Record Transport := mkTransport { Name : string; Protocol : string }.

(** What the hooks read of a [*centrifuge.Client]. *)
Record SrvClient := mkSrvClient { ID : string; Info : string; transport : Transport }.

Record SubscribeEvent := mkSubscribeEvent { seChannel : string }.
Record PublishEvent := mkPublishEvent { peChannel : string; peData : string }.
Record RPCEvent := mkRPCEvent { rpcMethod : string; rpcData : string }.

(** The replies are only ever built as zero values ([SubscribeReply{}] and
    [PublishReply{}]); [RPCReply] is never built by the program. *)
Inductive SubscribeReply := SubscribeReplyZero.
Inductive PublishReply := PublishReplyZero.
Record RPCReply := mkRPCReply { rpcReplyData : string }.

Inductive SrvHook := HSubscribe | HPublish | HDisconnect | HRPC.

(** ** Events of the in-process clients (client side) *)

Inductive ClientHook := HConnecting | HConnected | HDisconnected | HError | HMessage.
Inductive SubHook := HJoin | HSubError | HPublication | HSubscribing | HSubscribed.

(** What [c.NewSubscription] hands back: Go's pair of a pointer, which may
    be nil, and an error, which may be nil. *)
Record NewSubscriptionResult := mkNewSub {
  subServer : bool;               (* the pointer is non-nil *)
  newSubErr : option GoError
}.

Inductive ClientEvent :=
| EvConnecting
| EvConnected (ns : NewSubscriptionResult) (subscribeErr : option GoError)
| EvDisconnected (code : nat) (reason : string)
| EvError (e : GoError)
| EvMessage (data : string)
| EvJoin (client : string)
| EvSubError (e : GoError)
| EvPublication (data : string)
| EvSubscribing (reason : string)
| EvSubscribed.

(** A subscription object of a client: its channel, the hooks set on it
    and whether [Subscribe] was called and returned nil. *)
Record Subscription := mkSub {
  Channel : string;
  subHooks : list SubHook;
  subscribeCalled : bool;
  subscribeOk : bool
}.

(** A [*centrigo.Client] as [newClient] configures it. *)
Record Client := mkClient {
  endpoint : string;
  cfgName : string;
  cfgVersion : string;
  hooks : list ClientHook;
  subs : list Subscription
}.

(** ** Signals *)

Inductive Signal := SIGHUP | SIGINT | SIGTERM.

Definition signal_eqb (a b : Signal) : bool :=
  match a, b with
  | SIGHUP, SIGHUP | SIGINT, SIGINT | SIGTERM, SIGTERM => true
  | _, _ => false
  end.

(** [s.String()] on Linux. *)
Definition signal_string (s : Signal) : string :=
  match s with
  | SIGHUP => "hangup"
  | SIGINT => "interrupt"
  | SIGTERM => "terminated"
  end.

(** ** Calls into the libraries

    The trace of what the program asks of its libraries, oldest first.
    Not every library call is an entry of it: what the program logs is
    kept in the log; the set-up of the logger (lines 24-30) has no entry;
    [http.FileServer(http.Dir(dir))] is the argument [RouteFileServer dir]
    of the registration it is passed to; and the registrations of
    handlers on a client or on a subscription are kept as the handlers of
    that client or subscription. *)

Inductive Route :=
| RouteAuthWebsocket         (* auth(wsHandler) *)
| RouteFileServer (dir : string).

Inductive Call :=
| CNodeNew
| CNodeOnConnect
| CNodeRun
| CNewWebsocketHandler (readBufferSize : Z)
| CHttpHandle (pattern : string) (h : Route)
| CGo
| CListenAndServe (addr : string)
| CNewJsonClient (url name version : string)
| CWgAdd (delta : Z)
| CWgWait
| CConnect (i : nat)
| CNewSubscription (i : nat) (channel : string)
| CSubscribe (i : nat)
| CSignalNotify (sigs : list Signal)
| CServeWebsocket (w : ResponseWriter) (r : Request)
| CServeFile (w : ResponseWriter) (r : Request)
| CSubscribeReply (client : string) (reply : SubscribeReply) (err : option GoError)
| CPublishReply (client : string) (reply : PublishReply) (err : option GoError)
| CRPCReply (client : string) (reply : RPCReply) (err : option GoError).

(** ** The process *)

(** Program points of [main], named after what the next step executes. *)
Inductive PC :=
| pcInitLog               (* lines 24-30 *)
| pcNodeNew               (* lines 32-37 *)
| pcOnConnect             (* lines 39-62: registration only *)
| pcNodeRun               (* lines 64-67 *)
| pcRoutes                (* lines 71-77 *)
| pcGo                    (* line 79 *)
| pcMakeClients           (* line 86 *)
| pcLoopCreate (i : nat)  (* lines 88-90, with the loop test *)
| pcLoopAdd (i : nat)     (* line 91 *)
| pcLoopConnect (i : nat) (* lines 92-95 *)
| pcLogWaiting            (* line 98 *)
| pcWait                  (* line 100 *)
| pcLogAllConnected       (* line 102 *)
| pcNotify                (* lines 105-106 *)
| pcRecv                  (* lines 108-109 *)
| pcLogExit               (* line 111 *)
| pcReturned.

Inductive Listener := LisNone | LisSpawned | LisServing.

Inductive Status :=
| Running
| Crashed (v : string)     (* an unrecovered panic *)
| Killed (s : Signal)      (* default disposition of a signal *)
| Exited.                  (* [main] returned *)

Record Proc := mkProc {
  logs : list LogEntry;
  wg : Z;                               (* the WaitGroup counter *)
  calls : list Call;
  clients : list (option Client);       (* the [clients] slice *)
  srvHooks : list (string * SrvHook);   (* hooks set on server-side clients *)
  onConnectSet : bool;                  (* node.OnConnect was called *)
  listener : Listener;
  interrupt : option (list Signal);     (* the channel and its buffer *)
  notified : list Signal;               (* signals relayed by signal.Notify *)
  main_pc : PC;
  status : Status
}.

Definition init : Proc :=
  {| logs := []; wg := 0; calls := []; clients := []; srvHooks := [];
     onConnectSet := false; listener := LisNone;
     interrupt := None; notified := []; main_pc := pcInitLog;
     status := Running |}.

(** Field updates. *)
Definition set_logs (f : list LogEntry -> list LogEntry) (p : Proc) : Proc :=
  mkProc (f (logs p)) (wg p) (calls p) (clients p) (srvHooks p) (onConnectSet p)
         (listener p) (interrupt p) (notified p) (main_pc p) (status p).
Definition set_wg (f : Z -> Z) (p : Proc) : Proc :=
  mkProc (logs p) (f (wg p)) (calls p) (clients p) (srvHooks p) (onConnectSet p)
         (listener p) (interrupt p) (notified p) (main_pc p) (status p).
Definition set_calls (f : list Call -> list Call) (p : Proc) : Proc :=
  mkProc (logs p) (wg p) (f (calls p)) (clients p) (srvHooks p) (onConnectSet p)
         (listener p) (interrupt p) (notified p) (main_pc p) (status p).
Definition set_clients (f : list (option Client) -> list (option Client)) (p : Proc) : Proc :=
  mkProc (logs p) (wg p) (calls p) (f (clients p)) (srvHooks p) (onConnectSet p)
         (listener p) (interrupt p) (notified p) (main_pc p) (status p).
Definition set_srvHooks (f : list (string * SrvHook) -> list (string * SrvHook)) (p : Proc) : Proc :=
  mkProc (logs p) (wg p) (calls p) (clients p) (f (srvHooks p)) (onConnectSet p)
         (listener p) (interrupt p) (notified p) (main_pc p) (status p).
Definition set_onConnectSet (b : bool) (p : Proc) : Proc :=
  mkProc (logs p) (wg p) (calls p) (clients p) (srvHooks p) b
         (listener p) (interrupt p) (notified p) (main_pc p) (status p).
Definition set_listener (l : Listener) (p : Proc) : Proc :=
  mkProc (logs p) (wg p) (calls p) (clients p) (srvHooks p) (onConnectSet p)
         l (interrupt p) (notified p) (main_pc p) (status p).
Definition set_interrupt (c : option (list Signal)) (p : Proc) : Proc :=
  mkProc (logs p) (wg p) (calls p) (clients p) (srvHooks p) (onConnectSet p)
         (listener p) c (notified p) (main_pc p) (status p).
Definition set_notified (l : list Signal) (p : Proc) : Proc :=
  mkProc (logs p) (wg p) (calls p) (clients p) (srvHooks p) (onConnectSet p)
         (listener p) (interrupt p) l (main_pc p) (status p).
Definition set_pc (pc : PC) (p : Proc) : Proc :=
  mkProc (logs p) (wg p) (calls p) (clients p) (srvHooks p) (onConnectSet p)
         (listener p) (interrupt p) (notified p) pc (status p).
Definition set_status (s : Status) (p : Proc) : Proc :=
  mkProc (logs p) (wg p) (calls p) (clients p) (srvHooks p) (onConnectSet p)
         (listener p) (interrupt p) (notified p) (main_pc p) s.

(** ** A state monad with panics

    A block of Go code either runs to its end or panics; either way it
    leaves a process state behind. *)

Inductive Res (A : Type) :=
| Val (a : A)
| Panic (v : string).
Arguments Val {A} a.
Arguments Panic {A} v.

Definition M (A : Type) := Proc -> Res A * Proc.

Definition ret {A} (a : A) : M A := fun p => (Val a, p).

Definition bind {A B} (c : M A) (k : A -> M B) : M B :=
  fun p =>
    match c p with
    | (Val a, p') => k a p'
    | (Panic v, p') => (Panic v, p')
    end.

Definition panic {A} (v : string) : M A := fun p => (Panic v, p).

Declare Scope go_scope.
Delimit Scope go_scope with go.
Notation "c ;; k" := (bind c (fun _ => k))
  (at level 61, right associativity) : go_scope.
Notation "x <- c ;; k" := (bind c (fun x => k))
  (at level 61, c at next level, right associativity) : go_scope.
#[local] Open Scope go_scope.

Definition modify (f : Proc -> Proc) : M unit := fun p => (Val tt, f p).

Definition when (b : bool) (c : M unit) : M unit := if b then c else ret tt.

(** [log.Info().Msgf], [log.Error().Msgf]. *)
Definition log_msg (l : Level) (m : string) : M unit :=
  modify (set_logs (fun ls => (ls ++ [mkLog l m])%list)).
Definition log_info := log_msg InfoLevel.
Definition log_error := log_msg ErrorLevel.

(** [log.Panic().Msgf]: zerolog writes the entry, then panics with it. *)
Definition log_panic (m : string) : M unit :=
  log_msg PanicLevel m ;; panic m.

Definition call (c : Call) : M unit :=
  modify (set_calls (fun cs => (cs ++ [c])%list)).

(** [wg.Add(delta)]: the counter moves first; a negative counter panics. *)
Definition wg_add (delta : Z) : M unit :=
  call (CWgAdd delta) ;;
  modify (set_wg (fun n => n + delta)) ;;
  fun p => if wg p <? 0 then (Panic "sync: negative WaitGroup counter", p)
           else (Val tt, p).

(** [wg.Done()] is [wg.Add(-1)]. *)
Definition wg_done : M unit := wg_add (-1).

(** Run a block as one step of the process: a panic that nothing
    recovers ends the process. *)
Definition exec (c : M unit) (p : Proc) : Proc :=
  match c p with
  | (Val _, p') => p'
  | (Panic v, p') => set_status (Crashed v) p'
  end.

(** ** The HTTP front door: [auth] *)

Definition Handler := ResponseWriter -> Request -> M unit.

Definition auth (h : Handler) : Handler :=
  fun w r =>
    let ctx := RContext r in
    let cred := {| UserID := ""; ExpireAt := 0; CredInfo := "" |} in
    let newCtx := SetCredentials ctx cred in
    let r := WithContext r newCtx in
    h w r.

(** The two handlers of the libraries that the routes end in. *)
Definition wsHandler : Handler := fun w r => call (CServeWebsocket w r).
Definition fileServer : Handler := fun w r => call (CServeFile w r).

(** ** The server-side hooks *)

Definition SubscribeCallback := SubscribeReply -> option GoError -> M unit.
Definition PublishCallback := PublishReply -> option GoError -> M unit.
Definition RPCCallback := RPCReply -> option GoError -> M unit.

Definition who (client : SrvClient) : string :=
  "client " ++ ID client ++ " (" ++ Info client ++ ")".

Definition on_subscribe (client : SrvClient)
    (e : SubscribeEvent) (cb : SubscribeCallback) : M unit :=
  log_info (who client ++ " subscribes on channel " ++ seChannel e) ;;
  cb SubscribeReplyZero None.

Definition on_publish (client : SrvClient)
    (e : PublishEvent) (cb : PublishCallback) : M unit :=
  log_info (who client ++ " publishes into channel " ++ peChannel e ++ ": " ++ peData e) ;;
  cb PublishReplyZero None.

Definition on_disconnect (client : SrvClient) : M unit :=
  log_info (who client ++ " disconnected").

Definition handleRPC (e : RPCEvent) (c : RPCCallback) : M unit :=
  log_info ("client RPC: " ++ rpcMethod e ++ " " ++ rpcData e).

(** [client.OnSubscribe(f)] and its siblings store a hook on the
    server-side client. *)
Definition set_hook (client : SrvClient) (h : SrvHook) : M unit :=
  modify (set_srvHooks (fun hs => (hs ++ [(ID client, h)])%list)).

(** The function given to [node.OnConnect]. *)
Definition on_connect (client : SrvClient) : M unit :=
  let transportName := Name (transport client) in
  let transportProto := Protocol (transport client) in
  log_info (who client ++ " connected via " ++ transportName
            ++ " (" ++ transportProto ++ ")") ;;
  set_hook client HSubscribe ;;
  set_hook client HPublish ;;
  set_hook client HDisconnect ;;
  set_hook client HRPC ;;
  wg_done.

(** ** The client driver: [newClient] *)

Definition wsURL : string := "ws://localhost:8000/connection/websocket".
Definition serverChannel : string := "com.jtbonhomme.server".

Definition nil_dereference : string :=
  "runtime error: invalid memory address or nil pointer dereference".

(** Rewrite the client held at index [i] of the slice. *)
Fixpoint update_at {A} (i : nat) (f : A -> A) (l : list A) : list A :=
  match l, i with
  | [], _ => []
  | x :: t, O => f x :: t
  | x :: t, S j => x :: update_at j f t
  end.

Definition on_client (i : nat) (f : Client -> Client) : M unit :=
  modify (set_clients (update_at i (option_map f))).

Definition add_sub (s : Subscription) (c : Client) : Client :=
  mkClient (endpoint c) (cfgName c) (cfgVersion c) (hooks c) (s :: subs c).

Definition on_newest_sub (f : Subscription -> Subscription) (c : Client) : Client :=
  mkClient (endpoint c) (cfgName c) (cfgVersion c) (hooks c)
           (update_at 0 f (subs c)).

(** A method of [*Subscription] that stores into its receiver: a nil
    receiver faults. *)
Definition sub_method (i : nat) (ns : NewSubscriptionResult)
    (f : Subscription -> Subscription) : M unit :=
  if subServer ns then on_client i (on_newest_sub f) else panic nil_dereference.

Definition set_sub_hook (i : nat) (ns : NewSubscriptionResult) (h : SubHook) : M unit :=
  sub_method i ns (fun s =>
    mkSub (Channel s) (subHooks s ++ [h])%list (subscribeCalled s) (subscribeOk s)).

(** [c.NewSubscription(channel)]: the library decides the result [ns];
    a non-nil pointer is a fresh subscription kept by the client. *)
Definition new_subscription (i : nat) (channel : string)
    (ns : NewSubscriptionResult) : M unit :=
  call (CNewSubscription i channel) ;;
  when (subServer ns) (on_client i (add_sub (mkSub channel [] false false))).

(** [subServer.Subscribe()]: the library decides the error. *)
Definition subscribe (i : nat) (ns : NewSubscriptionResult)
    (err : option GoError) : M unit :=
  sub_method i ns (fun s =>
    mkSub (Channel s) (subHooks s) true
          (match err with None => true | Some _ => false end)) ;;
  call (CSubscribe i).

Definition on_connecting : M unit := log_info "Connecting".

(** The function given to [c.OnConnected], for the client at index [i]. *)
Definition on_connected (i : nat) (ns : NewSubscriptionResult)
    (subscribeErr : option GoError) : M unit :=
  log_info "Connected" ;;
  new_subscription i serverChannel ns ;;
  match newSubErr ns with
  | Some err => log_error ("subscription creation error: " ++ err)
  | None => ret tt
  end ;;
  set_sub_hook i ns HJoin ;;
  set_sub_hook i ns HSubError ;;
  set_sub_hook i ns HPublication ;;
  set_sub_hook i ns HSubscribing ;;
  set_sub_hook i ns HSubscribed ;;
  subscribe i ns subscribeErr ;;
  match subscribeErr with
  | Some err => log_error ("subscription error: " ++ err)
  | None => ret tt
  end.

Definition on_disconnected (code : nat) (reason : string) : M unit :=
  log_info ("Disconnected event: " ++ itoa code ++ " " ++ reason).

Definition on_error (e : GoError) : M unit := log_info ("error: " ++ e).

Definition on_message (data : string) : M unit :=
  log_info ("Message received from server " ++ data).

Definition on_join (client : string) : M unit :=
  log_info ("[com.jtbonhomme.server] join event: " ++ client).
Definition on_sub_error (e : GoError) : M unit :=
  log_info ("[com.jtbonhomme.server] subscription error event: " ++ e).
Definition on_publication (data : string) : M unit :=
  log_info ("[com.jtbonhomme.server] publication event: " ++ data).
Definition on_subscribing (reason : string) : M unit :=
  log_info ("[com.jtbonhomme.server] subscribing event: " ++ reason).
Definition on_subscribed : M unit :=
  log_info "[com.jtbonhomme.server] subscribed event".

Definition newClient : M Client :=
  call (CNewJsonClient wsURL "listening-go-client" "0.0.1") ;;
  ret {| endpoint := wsURL;
         cfgName := "listening-go-client";
         cfgVersion := "0.0.1";
         hooks := [HConnecting; HConnected; HDisconnected; HError; HMessage];
         subs := [] |}.

(** ** [main] *)

(** [clients[i] = c]; an index outside the slice panics. *)
Definition store_client (i : nat) (c : Client) : M unit :=
  fun p =>
    if (i <? length (clients p))%nat
    then modify (set_clients (update_at i (fun _ => Some c))) p
    else (Panic "runtime error: index out of range", p).

(** [panic(fmt.Errorf(format + ": %w", err))] when [err] is not nil. *)
Definition panic_on (what : string) (o : option GoError) : M unit :=
  match o with
  | Some err => panic (what ++ ": " ++ err)
  | None => ret tt
  end.

(** One step of [main] at program point [pc].  [o] is the error that the
    library call made at this point returns ([None] for nil); [s] is the
    value taken from the [interrupt] channel.  Each is read only at the
    points that have such a call or receive.  The result is the next
    program point. *)
Definition main_block (pc : PC) (o : option GoError) (s : Signal) : M PC :=
  match pc with
  | pcInitLog => ret pcNodeNew
  | pcNodeNew =>
      call CNodeNew ;;
      panic_on "error instantiating new centrifuge node" o ;;
      ret pcOnConnect
  | pcOnConnect =>
      call CNodeOnConnect ;;
      modify (set_onConnectSet true) ;;
      ret pcNodeRun
  | pcNodeRun =>
      call CNodeRun ;;
      panic_on "error running centrifuge node" o ;;
      ret pcRoutes
  | pcRoutes =>
      call (CNewWebsocketHandler 1024) ;;
      call (CHttpHandle "/connection/websocket" RouteAuthWebsocket) ;;
      call (CHttpHandle "/" (RouteFileServer "./public")) ;;
      ret pcGo
  | pcGo =>
      call CGo ;;
      modify (set_listener LisSpawned) ;;
      ret pcMakeClients
  | pcMakeClients =>
      modify (set_clients (fun _ => repeat None 4)) ;;
      ret (pcLoopCreate 0)
  | pcLoopCreate i =>
      if (i <? 4)%nat then
        log_info ("create player " ++ itoa i) ;;
        c <- newClient ;;
        store_client i c ;;
        ret (pcLoopAdd i)
      else ret pcLogWaiting
  | pcLoopAdd i =>
      wg_add 1 ;;
      ret (pcLoopConnect i)
  | pcLoopConnect i =>
      call (CConnect i) ;;
      match o with
      | Some err => log_panic ("connect client " ++ itoa i ++ " error: " ++ err)
      | None => ret tt
      end ;;
      ret (pcLoopCreate (S i))
  | pcLogWaiting =>
      log_info "waiting for all clients to connected" ;;
      ret pcWait
  | pcWait =>
      call CWgWait ;;
      ret pcLogAllConnected
  | pcLogAllConnected =>
      log_info "all client  connected" ;;
      ret pcNotify
  | pcNotify =>
      modify (set_interrupt (Some [])) ;;
      call (CSignalNotify [SIGINT; SIGTERM]) ;;
      modify (set_notified [SIGINT; SIGTERM]) ;;
      ret pcRecv
  | pcRecv =>
      log_info ("received signal: " ++ signal_string s) ;;
      ret pcLogExit
  | pcLogExit =>
      log_info "exit" ;;
      ret pcReturned
  | pcReturned => ret pcReturned
  end.

(** The goroutine of line 79: before and after [http.ListenAndServe]. *)
Definition listen_start : M unit :=
  log_info "Starting server, visit http://localhost:8000" ;;
  call (CListenAndServe ":8000") ;;
  modify (set_listener LisServing).

Definition listen_return (err : GoError) : M unit :=
  panic ("error listening on :8000: " ++ err).

(** ** The process as a transition system

    A label is one thing that happens: a step of [main], or an event that
    the runtime or a library delivers to code of the program. *)

Inductive Label :=
| LMain (o : option GoError)
| LListenStart
| LListenReturn (err : GoError)
| LUpgrade (w : ResponseWriter) (r : Request)   (* request routed to /connection/websocket *)
| LFile (w : ResponseWriter) (r : Request)      (* request routed to / *)
| LSrvConnect (c : SrvClient)
| LSrvSubscribe (c : SrvClient) (e : SubscribeEvent)
| LSrvPublish (c : SrvClient) (e : PublishEvent)
| LSrvDisconnect (c : SrvClient)
| LSrvRPC (c : SrvClient) (e : RPCEvent)
| LClient (i : nat) (ev : ClientEvent)
| LSignal (s : Signal).

Definition srvhook_eqb (a b : SrvHook) : bool :=
  match a, b with
  | HSubscribe, HSubscribe | HPublish, HPublish
  | HDisconnect, HDisconnect | HRPC, HRPC => true
  | _, _ => false
  end.

Definition subhook_eqb (a b : SubHook) : bool :=
  match a, b with
  | HJoin, HJoin | HSubError, HSubError | HPublication, HPublication
  | HSubscribing, HSubscribing | HSubscribed, HSubscribed => true
  | _, _ => false
  end.

Definition has_hook (c : SrvClient) (h : SrvHook) (p : Proc) : bool :=
  existsb (fun x => String.eqb (fst x) (ID c) && srvhook_eqb (snd x) h) (srvHooks p).

Definition client_at (i : nat) (p : Proc) : option Client :=
  match nth_error (clients p) i with
  | Some (Some c) => Some c
  | _ => None
  end.

Definition has_sub_hook (i : nat) (h : SubHook) (p : Proc) : bool :=
  match client_at i p with
  | Some c => existsb (fun s => existsb (subhook_eqb h) (subHooks s)) (subs c)
  | None => false
  end.

(** The callbacks the broker passes to the hooks: they send the reply. *)
Definition reply_subscribe (c : SrvClient) : SubscribeCallback :=
  fun r e => call (CSubscribeReply (ID c) r e).
Definition reply_publish (c : SrvClient) : PublishCallback :=
  fun r e => call (CPublishReply (ID c) r e).
Definition reply_rpc (c : SrvClient) : RPCCallback :=
  fun r e => call (CRPCReply (ID c) r e).

(** The hook that a client event runs, if it is set. *)
Definition client_event (i : nat) (ev : ClientEvent) (p : Proc) : option (M unit) :=
  match client_at i p with
  | None => None
  | Some _ =>
      match ev with
      | EvConnecting => Some on_connecting
      | EvConnected ns e => Some (on_connected i ns e)
      | EvDisconnected code reason => Some (on_disconnected code reason)
      | EvError e => Some (on_error e)
      | EvMessage d => Some (on_message d)
      | EvJoin c => if has_sub_hook i HJoin p then Some (on_join c) else None
      | EvSubError e => if has_sub_hook i HSubError p then Some (on_sub_error e) else None
      | EvPublication d =>
          if has_sub_hook i HPublication p then Some (on_publication d) else None
      | EvSubscribing r =>
          if has_sub_hook i HSubscribing p then Some (on_subscribing r) else None
      | EvSubscribed => if has_sub_hook i HSubscribed p then Some on_subscribed else None
      end
  end.

(** A step of [main]: [wg.Wait()] blocks while the counter is not zero,
    the receive blocks while the channel is empty, and returning from
    [main] ends the process.  Away from the receive no signal is taken,
    and the one passed to the block is not read. *)
Definition main_step (o : option GoError) (p : Proc) : option Proc :=
  let run s p0 :=
    match main_block (main_pc p) o s p0 with
    | (Val pcReturned, p') => Some (set_status Exited (set_pc pcReturned p'))
    | (Val pc', p') => Some (set_pc pc' p')
    | (Panic v, p') => Some (set_status (Crashed v) p')
    end in
  let none_taken := SIGHUP in
  match main_pc p with
  | pcReturned => None
  | pcWait => if wg p =? 0 then run none_taken p else None
  | pcRecv =>
      match interrupt p with
      | Some (s :: rest) => run s (set_interrupt (Some rest) p)
      | _ => None
      end
  | _ => run none_taken p
  end.

(** Delivery of a signal: relayed to the channel without blocking when
    [signal.Notify] asked for it (a full buffer drops it), the default
    disposition otherwise. *)
Definition deliver (s : Signal) (p : Proc) : Proc :=
  if existsb (signal_eqb s) (notified p) then
    match interrupt p with
    | Some [] => set_interrupt (Some [s]) p
    | _ => p
    end
  else set_status (Killed s) p.

Definition guard (b : bool) (c : M unit) (p : Proc) : option Proc :=
  if b then Some (exec c p) else None.

Definition is_serving (p : Proc) : bool :=
  match listener p with LisServing => true | _ => false end.

Definition step (l : Label) (p : Proc) : option Proc :=
  match status p with
  | Running =>
      match l with
      | LMain o => main_step o p
      | LListenStart =>
          guard (match listener p with LisSpawned => true | _ => false end)
                listen_start p
      | LListenReturn err => guard (is_serving p) (listen_return err) p
      | LUpgrade w r => guard (is_serving p) (auth wsHandler w r) p
      | LFile w r => guard (is_serving p) (fileServer w r) p
      | LSrvConnect c => guard (onConnectSet p && is_serving p) (on_connect c) p
      | LSrvSubscribe c e =>
          guard (has_hook c HSubscribe p) (on_subscribe c e (reply_subscribe c)) p
      | LSrvPublish c e =>
          guard (has_hook c HPublish p) (on_publish c e (reply_publish c)) p
      | LSrvDisconnect c => guard (has_hook c HDisconnect p) (on_disconnect c) p
      | LSrvRPC c e => guard (has_hook c HRPC p) (handleRPC e (reply_rpc c)) p
      | LClient i ev =>
          match client_event i ev p with
          | Some h => Some (exec h p)
          | None => None
          end
      | LSignal s => Some (deliver s p)
      end
  | _ => None
  end.

(** A run: the labels one after the other, from the left. *)
Fixpoint run (ls : list Label) (p : Proc) : option Proc :=
  match ls with
  | [] => Some p
  | l :: rest =>
      match step l p with
      | Some p' => run rest p'
      | None => None
      end
  end.


(** * Vocabulary of the statements

    Measures on program points and runs, the invariants of the runs, and
    the concrete runs that the statements are tried on. *)

(** The credentials of an anonymous user. *)
Definition anonymous : Credentials := {| UserID := ""; ExpireAt := 0; CredInfo := "" |}.

(** The state after [log.Info().Msg(m)]. *)
Definition info (m : string) (p : Proc) : Proc :=
  set_logs (fun ls => (ls ++ [mkLog InfoLevel m])%list) p.

(** ** The startup barrier *)

Definition is_connect (l : Label) : bool :=
  match l with LSrvConnect _ => true | _ => false end.

(** How many times the on-connect callback ran in a run. *)
Definition count_connects (ls : list Label) : nat :=
  length (filter is_connect ls).

(** The connections for which the on-connect callback ran, in order. *)
Fixpoint connects (ls : list Label) : list SrvClient :=
  match ls with
  | [] => []
  | LSrvConnect c :: rest => c :: connects rest
  | _ :: rest => connects rest
  end.

(** How many [wg.Add(1)] lie behind a program point of [main]. *)
Definition adds_done (pc : PC) : Z :=
  match pc with
  | pcInitLog | pcNodeNew | pcOnConnect | pcNodeRun | pcRoutes | pcGo
  | pcMakeClients => 0
  | pcLoopCreate i | pcLoopAdd i => Z.of_nat i
  | pcLoopConnect i => Z.of_nat i + 1
  | _ => 4
  end.

Definition past_barrier (pc : PC) : bool :=
  match pc with
  | pcLogAllConnected | pcNotify | pcRecv | pcLogExit | pcReturned => true
  | _ => false
  end.

Definition pc_ok (pc : PC) : Prop :=
  match pc with
  | pcLoopCreate i => (i <= 4)%nat
  | pcLoopAdd i | pcLoopConnect i => (i < 4)%nat
  | _ => True
  end.

(** The counter is the number of [Add]s minus the number of on-connect
    callbacks; it is not negative while the process runs; and [main] is
    past [wg.Wait()] only when four callbacks ran.  [n] counts the
    callbacks so far. *)
Record barrier_inv (n : nat) (p : Proc) : Prop := {
  inv_wg : wg p = adds_done (main_pc p) - Z.of_nat n;
  inv_pc : pc_ok (main_pc p);
  inv_nonneg : status p = Running -> 0 <= wg p;
  inv_past : past_barrier (main_pc p) = true -> (4 <= n)%nat
}.

(** The calls that move the counter up or attempt a connect, in the order
    [main] makes them when every connect succeeds. *)
Definition is_add_or_connect (c : Call) : bool :=
  match c with
  | CWgAdd d => 0 <? d
  | CConnect _ => true
  | _ => false
  end.

Definition add_connect_trace : list Call :=
  [CWgAdd 1; CConnect 0; CWgAdd 1; CConnect 1;
   CWgAdd 1; CConnect 2; CWgAdd 1; CConnect 3].

(** How far [main] is into that sequence at a program point. *)
Definition progress (pc : PC) : nat :=
  match pc with
  | pcInitLog | pcNodeNew | pcOnConnect | pcNodeRun | pcRoutes | pcGo
  | pcMakeClients => 0
  | pcLoopCreate i | pcLoopAdd i => 2 * i
  | pcLoopConnect i => 2 * i + 1
  | _ => 8
  end.

(** [main] has left the loop over the clients. *)
Definition loop_done (pc : PC) : bool :=
  match pc with
  | pcLogWaiting | pcWait => true
  | _ => past_barrier pc
  end.

Record trace_inv (p : Proc) : Prop := {
  tr_pc : pc_ok (main_pc p);
  tr_running : status p = Running \/ loop_done (main_pc p) = true ->
    filter is_add_or_connect (calls p)
    = firstn (progress (main_pc p)) add_connect_trace;
  tr_prefix : exists k,
    filter is_add_or_connect (calls p) = firstn k add_connect_trace
}.

(** ** A startup in which everything succeeds *)

(** A connection over websocket with the JSON protocol. *)
Definition websocket_json : Transport := mkTransport "websocket" "json".
Definition conn (id : string) : SrvClient := mkSrvClient id "" websocket_json.

(** A connected event on which the subscription is created and
    activated. *)
Definition subscribed_ok : ClientEvent := EvConnected (mkNewSub true None) None.

(** The steps of [main] from its start to the making of the slice, with
    the listener coming up in between. *)
Definition bootstrap : list Label :=
  [LMain None; LMain None; LMain None; LMain None; LMain None; LMain None;
   LListenStart; LMain None].

(** One turn of the loop of [main]: create, add, connect. *)
Definition turn : list Label := [LMain None; LMain None; LMain None].

(** The listener comes up, the four clients connect, the broker runs the
    on-connect callback for each connection (for the last two only when
    [main] already waits), every client subscribes, and [main] goes on to
    the receive from [interrupt]. *)
Definition startup_run : list Label :=
  (bootstrap
   ++ turn ++ [LSrvConnect (conn "c0"); LClient 0 subscribed_ok]
   ++ turn ++ [LSrvConnect (conn "c1"); LClient 1 subscribed_ok]
   ++ turn ++ turn
   ++ [LMain None; LMain None]           (* leave the loop, log, reach Wait *)
   ++ [LSrvConnect (conn "c2"); LClient 2 subscribed_ok;
       LSrvConnect (conn "c3"); LClient 3 subscribed_ok]
   ++ [LMain None; LMain None; LMain None])%list.

Definition after_startup : Proc :=
  Eval vm_compute in
    match run startup_run init with Some p => p | None => init end.

(** In [startup_run] the connection [ci] is the one of client [i]. *)
Definition startup_owner (c : SrvClient) : nat :=
  if String.eqb (ID c) "c0" then 0
  else if String.eqb (ID c) "c1" then 1
  else if String.eqb (ID c) "c2" then 2
  else if String.eqb (ID c) "c3" then 3
  else 4.

(** ** What the program asks of its libraries *)

Definition signals_eqb (a b : list Signal) : bool :=
  (length a =? length b)%nat && forallb (fun x => signal_eqb (fst x) (snd x)) (combine a b).

(** The shape of every call into a library that has a constant of the
    program in it, and of every reply sent through a callback. *)
Definition call_ok (c : Call) : bool :=
  match c with
  | CListenAndServe addr => String.eqb addr ":8000"
  | CNewJsonClient url name version =>
      String.eqb url "ws://localhost:8000/connection/websocket"
      && String.eqb name "listening-go-client" && String.eqb version "0.0.1"
  | CNewSubscription _ channel => String.eqb channel "com.jtbonhomme.server"
  | CHttpHandle pattern RouteAuthWebsocket => String.eqb pattern "/connection/websocket"
  | CHttpHandle pattern (RouteFileServer dir) =>
      String.eqb pattern "/" && String.eqb dir "./public"
  | CWgAdd d => (d =? 1) || (d =? -1)
  | CSignalNotify sigs => signals_eqb sigs [SIGINT; SIGTERM]
  | CSubscribeReply _ _ err | CPublishReply _ _ err =>
      match err with None => true | Some _ => false end
  | CRPCReply _ _ _ => false
  | CServeWebsocket _ r =>
      match GetCredentials (RContext r) with
      | Some cred => String.eqb (UserID cred) ""
      | None => false
      end
  | _ => true
  end.

(** A run in which a server-side client calls an RPC after startup. *)
Definition rpc_run : list Label :=
  (startup_run ++ [LSrvRPC (conn "c0") (mkRPCEvent "ping" "{}")])%list.

Definition after_rpc : Proc :=
  Eval vm_compute in
    match run rpc_run init with Some p => p | None => init end.

(** ** The clients slice *)

(** Which slots of the slice hold a client. *)
Definition shape (l : list (option Client)) : list bool :=
  map (fun oc => match oc with Some _ => true | None => false end) l.

Definition sub_ok (s : Subscription) : bool :=
  String.eqb (Channel s) "com.jtbonhomme.server".

Definition client_ok (c : Client) : bool :=
  String.eqb (endpoint c) "ws://localhost:8000/connection/websocket"
  && forallb sub_ok (subs c).

Definition slot_ok (oc : option Client) : bool :=
  match oc with Some c => client_ok c | None => true end.

(** How many clients [main] has stored in the slice at a program point. *)
Definition created (pc : PC) : nat :=
  match pc with
  | pcInitLog | pcNodeNew | pcOnConnect | pcNodeRun | pcRoutes | pcGo
  | pcMakeClients => 0
  | pcLoopCreate i => i
  | pcLoopAdd i | pcLoopConnect i => S i
  | _ => 4
  end.

(** [main] has made the slice. *)
Definition slice_made (pc : PC) : bool :=
  match pc with
  | pcInitLog | pcNodeNew | pcOnConnect | pcNodeRun | pcRoutes | pcGo
  | pcMakeClients => false
  | _ => true
  end.

Record clients_inv (p : Proc) : Prop := {
  ci_pc : pc_ok (main_pc p);
  ci_len : slice_made (main_pc p) = true -> length (clients p) = 4%nat;
  ci_slots : forallb slot_ok (clients p) = true;
  ci_created : forall j, (j < created (main_pc p))%nat ->
                         nth_error (shape (clients p)) j = Some true;
  ci_serving : is_serving p = true -> In (CListenAndServe ":8000") (calls p)
}.




(** ** The final wait *)

(** [main] is at or past the receive from [interrupt]. *)
Definition handler_installed (pc : PC) : bool :=
  match pc with
  | pcRecv | pcLogExit | pcReturned => true
  | _ => false
  end.

Definition is_term_signal (s : Signal) : Prop := s = SIGINT \/ s = SIGTERM.

Record signal_inv (p : Proc) : Prop := {
  si_before : handler_installed (main_pc p) = false ->
              notified p = [] /\ interrupt p = None;
  si_after : handler_installed (main_pc p) = true ->
             notified p = [SIGINT; SIGTERM]
             /\ (interrupt p = Some []
                 \/ exists s, is_term_signal s /\ interrupt p = Some [s])
}.

(** The signal that the receive of line 108 takes when [s] is delivered:
    [s] itself, unless an earlier one is still in the buffer. *)
Definition received (s : Signal) (p : Proc) : Signal :=
  match interrupt p with
  | Some (s0 :: _) => s0
  | _ => s
  end.

(** ** Failures *)

(** Startup up to the first client's connect, then the connected event of
    that client with [NewSubscription] returning a nil subscription and
    an error. *)
Definition creation_failure_run : list Label :=
  (bootstrap ++ turn
   ++ [LSrvConnect (conn "c0");
       LClient 0 (EvConnected (mkNewSub false (Some "duplicate subscription"))
                              None)])%list.

(** The failures that the program answers with a panic of its own: an
    error from [centrifuge.New], [node.Run] or a client's [Connect],
    reported to a step of [main], and the return of
    [http.ListenAndServe]. *)
Definition fatal_label (l : Label) : bool :=
  match l with
  | LMain (Some _) | LListenReturn _ => true
  | _ => false
  end.

(** A fifth connection to the broker after startup, for instance from a
    browser that loads the page served at the root route. *)
Definition fifth_connection_run : list Label :=
  (startup_run ++ [LSrvConnect (conn "browser")])%list.

(** ** Requests and events after startup *)

(** An upgrade request that names a user in a header and arrives with
    credentials of that user already in its context. *)
Definition admin_request : Request :=
  {| Method := "GET";
     URL := "/connection/websocket";
     Header := [("Authorization", ["Bearer admin"]); ("Upgrade", ["websocket"])];
     Body := "";
     ctx := Some [(otherKey "trace", otherVal "t1");
                  (credentialsContextKey, credVal (mkCred "admin" 0 ""))] |}.

(** The listener comes up and serves that request. *)
Definition upgrade_run : list Label :=
  (bootstrap ++ [LUpgrade 7%nat admin_request])%list.

Definition after_upgrade : Proc :=
  Eval vm_compute in
    match run upgrade_run init with Some p => p | None => init end.

(** After startup, the first connection subscribes to a channel and
    publishes into it. *)
Definition pubsub_run : list Label :=
  (startup_run ++
   [LSrvSubscribe (conn "c0") (mkSubscribeEvent "com.jtbonhomme.server");
    LSrvPublish (conn "c0") (mkPublishEvent "com.jtbonhomme.server" "hello")])%list.

Definition after_pubsub : Proc :=
  Eval vm_compute in
    match run pubsub_run init with Some p => p | None => init end.

(** A step and the state it is taken from, such that the step panics. *)
Inductive abort_cause : Label -> Proc -> Prop :=
| AbortNodeNew (err : GoError) (p : Proc) :
    main_pc p = pcNodeNew -> abort_cause (LMain (Some err)) p
| AbortNodeRun (err : GoError) (p : Proc) :
    main_pc p = pcNodeRun -> abort_cause (LMain (Some err)) p
| AbortConnect (err : GoError) (i : nat) (p : Proc) :
    main_pc p = pcLoopConnect i -> abort_cause (LMain (Some err)) p
| AbortListen (err : GoError) (p : Proc) :
    abort_cause (LListenReturn err) p
| AbortNilSubscription (i : nat) (ns : NewSubscriptionResult)
    (e : option GoError) (p : Proc) :
    subServer ns = false -> abort_cause (LClient i (EvConnected ns e)) p
| AbortNegativeCounter (c : SrvClient) (p : Proc) :
    wg p = 0 -> abort_cause (LSrvConnect c) p.

(** * Vocabulary of the further properties *)

(** ** The counter and the server-side hooks *)

(** The process is running with a counter that is not negative, or it was
    ended by the panic of [wg.Add] with the counter at minus one. *)
Definition counter_sound (p : Proc) : Prop :=
  0 <= wg p
  \/ (wg p = -1 /\ status p = Crashed "sync: negative WaitGroup counter").

(** The hooks that the on-connect callback sets on a connection, in the
    order it sets them. *)
Definition hooks_of (c : SrvClient) : list (string * SrvHook) :=
  [(ID c, HSubscribe); (ID c, HPublish); (ID c, HDisconnect); (ID c, HRPC)].

(** [node.OnConnect] was called once [main] is past line 62. *)
Definition on_connect_registered (pc : PC) : bool :=
  match pc with
  | pcInitLog | pcNodeNew | pcOnConnect => false
  | _ => true
  end.

(** The startup run with [main] stopped at [wg.Wait()], two connections
    still to come. *)
Definition waiting_run : list Label :=
  (bootstrap
   ++ turn ++ [LSrvConnect (conn "c0")]
   ++ turn ++ [LSrvConnect (conn "c1")]
   ++ turn ++ turn
   ++ [LMain None; LMain None])%list.

Definition at_wait : Proc :=
  Eval vm_compute in
    match run waiting_run init with Some p => p | None => init end.

(** ** Events that are only logged *)

(** The events whose hook is a single [log.Info()] line: the disconnect of
    a server-side client, and every event of a client or of its
    subscription other than connected. *)
Definition log_only (l : Label) : bool :=
  match l with
  | LSrvDisconnect _ => true
  | LClient _ (EvConnected _ _) => false
  | LClient _ _ => true
  | _ => false
  end.

(** After startup the first client is disconnected by the server. *)
Definition disconnect_run : list Label :=
  (startup_run ++ [LClient 0 (EvDisconnected 3000 "connection closed")])%list.

Definition after_disconnect : Proc :=
  Eval vm_compute in
    match run disconnect_run init with Some p => p | None => init end.

(** ** The connected handler *)

(** The entry that [log.Error()] writes when [err] is not nil. *)
Definition error_line (what : string) (err : option GoError) : list LogEntry :=
  match err with
  | Some e => [mkLog ErrorLevel (what ++ e)]
  | None => []
  end.

(** The handlers of a subscription, in the order the connected handler
    sets them. *)
Definition all_sub_hooks : list SubHook :=
  [HJoin; HSubError; HPublication; HSubscribing; HSubscribed].

Definition subhooks_eqb (a b : list SubHook) : bool :=
  (length a =? length b)%nat
  && forallb (fun x => subhook_eqb (fst x) (snd x)) (combine a b).

(** A subscription on which all five handlers are set and [Subscribe] was
    called. *)
Definition sub_ready (s : Subscription) : bool :=
  subhooks_eqb (subHooks s) all_sub_hooks && subscribeCalled s.

Definition slot_ready (oc : option Client) : bool :=
  match oc with Some c => forallb sub_ready (subs c) | None => true end.

(** ** The order of the bootstrap *)

(** The entries that lines 32-79 add to the trace of calls, in program
    order. *)
Definition bootstrap_calls : list Call :=
  [CNodeNew; CNodeOnConnect; CNodeRun; CNewWebsocketHandler 1024;
   CHttpHandle "/connection/websocket" RouteAuthWebsocket;
   CHttpHandle "/" (RouteFileServer "./public"); CGo].

(** How many of them lie behind a program point of the bootstrap. *)
Definition boot_progress (pc : PC) : nat :=
  match pc with
  | pcInitLog | pcNodeNew => 0
  | pcOnConnect => 1
  | pcNodeRun => 2
  | pcRoutes => 3
  | pcGo => 6
  | _ => 7
  end.

(** [main] has not yet executed the [go] statement of line 79. *)
Definition before_go (pc : PC) : bool :=
  match pc with
  | pcInitLog | pcNodeNew | pcOnConnect | pcNodeRun | pcRoutes | pcGo => true
  | _ => false
  end.

Definition spawned (l : Listener) : bool :=
  match l with LisNone => false | _ => true end.

Record boot_inv (p : Proc) : Prop := {
  bi_before : spawned (listener p) = false ->
    srvHooks p = [] /\ clients p = []
    /\ (exists k, calls p = firstn k bootstrap_calls)
    /\ (status p = Running ->
        before_go (main_pc p) = true
        /\ calls p = firstn (boot_progress (main_pc p)) bootstrap_calls);
  bi_after : spawned (listener p) = true ->
    exists rest, calls p = (bootstrap_calls ++ rest)%list
}.

(** ** How the process ends *)

(** A value is waiting in the channel or was taken from it. *)
Definition signal_seen (p : Proc) : bool :=
  match interrupt p with
  | Some (_ :: _) => true
  | _ =>
      match main_pc p with
      | pcLogExit | pcReturned => true
      | _ => false
      end
  end.

(** What the labels [h] that led to [p] say about how [p] ended. *)
Record ending_inv (h : list Label) (p : Proc) : Prop := {
  en_seen : signal_seen p = true ->
            exists s, In (LSignal s) h /\ is_term_signal s;
  en_killed : forall s, status p = Killed s ->
              In (LSignal s) h
              /\ (handler_installed (main_pc p) = true -> s = SIGHUP);
  en_exited : status p = Exited -> main_pc p = pcReturned
}.

(** The process after a fifth connection. *)
Definition after_fifth : Proc :=
  Eval vm_compute in
    match run fifth_connection_run init with Some p => p | None => init end.


(** The startup run followed by SIGTERM and the last two steps of
    [main]. *)
Definition exit_run : list Label :=
  (startup_run ++ [LSignal SIGTERM; LMain None; LMain None])%list.

Definition after_exit : Proc :=
  Eval vm_compute in
    match run exit_run init with Some p => p | None => init end.

(** ** The lines that [main] logs *)

(** [pat] is a prefix of [s]. *)
Fixpoint starts_with (pat s : string) : bool :=
  match pat with
  | EmptyString => true
  | String a pat' =>
      match s with
      | EmptyString => false
      | String b s' => Ascii.eqb a b && starts_with pat' s'
      end
  end.

(** The info lines of [main] itself (lines 89, 98, 102, 109 and 111). *)
Inductive MainLine :=
| LnCreate | LnWaiting | LnAllConnected | LnReceived | LnExit.

Definition main_line (e : LogEntry) : option MainLine :=
  match level e with
  | InfoLevel =>
      if starts_with "create player " (message e) then Some LnCreate
      else if String.eqb (message e) "waiting for all clients to connected"
      then Some LnWaiting
      else if String.eqb (message e) "all client  connected" then Some LnAllConnected
      else if starts_with "received signal: " (message e) then Some LnReceived
      else if String.eqb (message e) "exit" then Some LnExit
      else None
  | _ => None
  end.

(** The lines of [main] in a log, in the order they were written. *)
Definition main_lines (l : list LogEntry) : list MainLine :=
  flat_map (fun e => match main_line e with Some k => [k] | None => [] end) l.

Definition expected_lines : list MainLine :=
  [LnCreate; LnCreate; LnCreate; LnCreate;
   LnWaiting; LnAllConnected; LnReceived; LnExit].

(** How many of them [main] has written at a program point. *)
Definition line_progress (pc : PC) : nat :=
  match pc with
  | pcInitLog | pcNodeNew | pcOnConnect | pcNodeRun | pcRoutes | pcGo
  | pcMakeClients => 0
  | pcLoopCreate i => i
  | pcLoopAdd i | pcLoopConnect i => S i
  | pcLogWaiting => 4
  | pcWait | pcLogAllConnected => 5
  | pcNotify | pcRecv => 6
  | pcLogExit => 7
  | pcReturned => 8
  end.

Record lines_inv (p : Proc) : Prop := {
  ln_pc : pc_ok (main_pc p);
  ln_exact : status p = Running \/ loop_done (main_pc p) = true ->
    main_lines (logs p) = firstn (line_progress (main_pc p)) expected_lines;
  ln_prefix : exists k, main_lines (logs p) = firstn k expected_lines
}.

(** ** The calls that [main] makes *)

(** The entries of the trace of calls made by [main] itself, as opposed
    to those of the hooks and of the listener goroutine. *)
Definition is_main_call (c : Call) : bool :=
  match c with
  | CNodeNew | CNodeOnConnect | CNodeRun | CNewWebsocketHandler _
  | CHttpHandle _ _ | CGo | CNewJsonClient _ _ _ | CConnect _ | CWgWait
  | CSignalNotify _ => true
  | CWgAdd d => 0 <? d
  | _ => false
  end.

(** What [main] calls for the client of index [i]. *)
Definition client_calls (i : nat) : list Call :=
  [CNewJsonClient "ws://localhost:8000/connection/websocket"
                  "listening-go-client" "0.0.1";
   CWgAdd 1; CConnect i].

(** All the entries that [main] adds to the trace of calls, in program
    order. *)
Definition main_call_trace : list Call :=
  (bootstrap_calls
   ++ client_calls 0 ++ client_calls 1 ++ client_calls 2 ++ client_calls 3
   ++ [CWgWait; CSignalNotify [SIGINT; SIGTERM]])%list.

(** How many of them lie behind a program point. *)
Definition call_progress (pc : PC) : nat :=
  match pc with
  | pcLoopCreate i => 7 + 3 * i
  | pcLoopAdd i => 8 + 3 * i
  | pcLoopConnect i => 9 + 3 * i
  | pcMakeClients => 7
  | pcLogWaiting | pcWait => 19
  | pcLogAllConnected | pcNotify => 20
  | pcRecv | pcLogExit | pcReturned => 21
  | _ => boot_progress pc
  end.

Record main_calls_inv (p : Proc) : Prop := {
  mc_pc : pc_ok (main_pc p);
  mc_exact : status p = Running \/ loop_done (main_pc p) = true ->
    filter is_main_call (calls p)
    = firstn (call_progress (main_pc p)) main_call_trace;
  mc_prefix : exists k, filter is_main_call (calls p) = firstn k main_call_trace
}.

(** The handlers that [newClient] registers on a client (lines 126-176),
    in the order of registration.  They are not calls of the trace: the
    client carries them. *)
Definition client_hooks : list ClientHook :=
  [HConnecting; HConnected; HDisconnected; HError; HMessage].

Definition slot_hooked (oc : option Client) : Prop :=
  match oc with Some c => hooks c = client_hooks | None => True end.

(** ** Panic-level log entries *)

(** A panic-level entry in the log is the message the process was ended
    with, and [main] stands at a [Connect] of its loop. *)
Definition panic_logged_at_connect (p : Proc) : Prop :=
  forall m, In (mkLog PanicLevel m) (logs p) ->
    status p = Crashed m /\ exists i, main_pc p = pcLoopConnect i.

(** The first client's [Connect] fails. *)
Definition connect_failure_run : list Label :=
  (bootstrap ++ [LMain None; LMain None; LMain (Some "connection refused")])%list.

Definition after_connect_failure : Proc :=
  Eval vm_compute in
    match run connect_failure_run init with Some p => p | None => init end.

(** ** A connection that is not one of the four clients

    The broker takes connections from anyone who reaches the listener.
    Here one arrives, from a browser say, while the four clients are on
    their way: its callback and those of the connections of the clients
    0, 1 and 2 bring the counter to zero, and [main] goes on to the
    receive from [interrupt].  The connection of client 3 is not yet
    among those the broker has handled. *)
Definition outsider_run : list Label :=
  (bootstrap
   ++ turn ++ turn ++ turn ++ turn
   ++ [LMain None; LMain None]           (* leave the loop, log, reach Wait *)
   ++ [LSrvConnect (conn "outsider");
       LSrvConnect (conn "c0"); LClient 0 subscribed_ok;
       LSrvConnect (conn "c1"); LClient 1 subscribed_ok;
       LSrvConnect (conn "c2"); LClient 2 subscribed_ok]
   ++ [LMain None; LMain None; LMain None])%list.

Definition after_outsider : Proc :=
  Eval vm_compute in
    match run outsider_run init with Some p => p | None => init end.

(** The connected handler of client [i] has run. *)
Definition connected_seen (i : nat) (ls : list Label) : bool :=
  existsb (fun l => match l with
                    | LClient j (EvConnected _ _) => (j =? i)%nat
                    | _ => false
                    end) ls.

(** * Properties *)

(** ** Reasoning about steps *)

(** Unfold the blocks of the program down to updates of the process
    state, and read fields of updated states. *)
Ltac blocks :=
  cbn [exec guard listen_start listen_return auth wsHandler fileServer
       on_connect on_subscribe on_publish on_disconnect handleRPC
       reply_subscribe reply_publish reply_rpc set_hook wg_done wg_add
       on_connecting on_connected on_disconnected on_error on_message
       on_join on_sub_error on_publication on_subscribing on_subscribed
       new_subscription subscribe set_sub_hook sub_method on_client when
       log_info log_error log_msg log_panic call modify bind ret panic
       deliver newClient store_client panic_on main_block
       set_logs set_wg set_calls set_clients set_srvHooks set_onConnectSet
       set_listener set_interrupt set_notified set_pc set_status
       subServer newSubErr
       logs wg calls clients srvHooks onConnectSet listener interrupt
       notified main_pc status fst snd] in *.

(** Decide the tests that are left in the goal. *)
Ltac tests :=
  repeat match goal with
    | |- context [if ?b then _ else _] => destruct b eqn:?; blocks
    | |- context [match ?o with Some _ => _ | None => _ end] =>
        destruct o eqn:?; blocks
    end.

(** Boolean tests of the program as propositions. *)
Ltac bools :=
  repeat match goal with
    | H : (_ <? _)%nat = true |- _ => apply Nat.ltb_lt in H
    | H : (_ <? _)%nat = false |- _ => apply Nat.ltb_ge in H
    | H : (_ <? _)%Z = true |- _ => apply Z.ltb_lt in H
    | H : (_ <? _)%Z = false |- _ => apply Z.ltb_ge in H
    | H : (_ =? _)%Z = true |- _ => apply Z.eqb_eq in H
    | H : (_ =? _)%Z = false |- _ => apply Z.eqb_neq in H
    end.

(** Only a running process steps. *)
Lemma step_running (l : Label) (p p' : Proc) :
  step l p = Some p' -> status p = Running.
Proof. unfold step. destruct (status p); congruence. Qed.

(** The signal passed to a block of [main] is read at the receive only. *)
Lemma main_block_signal (pc : PC) (o : option GoError) (s s' : Signal) :
  pc <> pcRecv -> main_block pc o s = main_block pc o s'.
Proof. intros Hpc. destruct pc; try reflexivity. congruence. Qed.

(** A property that every step preserves holds along every run. *)
Section RunInvariant.

Variable P : Proc -> Prop.
Hypothesis step_P : forall l p p', step l p = Some p' -> P p -> P p'.

Lemma run_invariant (ls : list Label) :
  forall p p' : Proc, run ls p = Some p' -> P p -> P p'.
Proof.
  induction ls as [|l ls IH]; intros p p' Hrun Hp.
  - injection Hrun as <-. exact Hp.
  - cbn [run] in Hrun. destruct (step l p) as [q|] eqn:Hstep; [|discriminate].
    eapply IH; [eassumption|]. eapply step_P; eassumption.
Qed.

End RunInvariant.

(** Case analysis on an enabled step [H : step l p = Some p'] whose label
    is not a step of [main]: one goal per label and event, in which [p']
    is the block of the program that the label runs, applied to [p]. *)
Ltac other_step H Hl :=
  let Hr := fresh "Hrun" in
  pose proof (step_running _ _ _ H) as Hr;
  unfold step in H; rewrite Hr in H;
  match type of H with
  | match ?l with LMain _ => _ | _ => _ end = _ =>
      destruct l; try (exfalso; eapply Hl; reflexivity)
  end;
  unfold guard, client_event in H;
  try match goal with
      | ev : ClientEvent |- _ =>
          destruct ev as [|[[|] [?|]] [?|]| | | | | | | |]
      end;
  repeat match type of H with
    | context [match client_at ?i ?p with _ => _ end] =>
        destruct (client_at i p) eqn:?
    | context [if ?b then _ else _] => destruct b eqn:?
    end;
  try discriminate H;
  injection H as H; subst;
  unfold exec, deliver; blocks; tests.

(** Case analysis on an enabled step [H : step (LMain o) p = Some p'] of
    [main]: one goal per program point and outcome. *)
Ltac main_cases H o :=
  let Hr := fresh "Hrun" in
  pose proof (step_running _ _ _ H) as Hr;
  unfold step in H; rewrite Hr in H;
  unfold main_step in H;
  destruct o;
  match type of H with
  | context [main_pc ?p] => destruct (main_pc p) eqn:?
  end;
  cbv beta iota zeta in H;
  try discriminate H;
  try match type of H with
      | context [match interrupt ?p with _ => _ end] =>
          destruct (interrupt p) as [[|? ?]|] eqn:?
      end;
  try discriminate H;
  blocks; unfold wg_add, bind in H; blocks;
  repeat match type of H with
    | context [if ?b then _ else _] =>
        destruct b eqn:?; unfold store_client, bind in H; blocks
    end;
  try discriminate H;
  injection H as H; subst; blocks.

(** ** The startup barrier *)

(** A step of anything but [main] leaves [main] where it is; it lowers
    the counter by one when it is a run of the on-connect callback, and
    leaves it alone otherwise. *)
Lemma step_other_barrier (l : Label) (p p' : Proc) :
  step l p = Some p' -> (forall o, l <> LMain o) ->
  main_pc p' = main_pc p
  /\ wg p' = wg p - (if is_connect l then 1 else 0)
  /\ (status p' = Running -> 0 <= wg p -> 0 <= wg p').
Proof.
  intros H Hl. other_step H Hl; cbn [is_connect];
    repeat split; try lia; try discriminate.
Qed.

(** A step of [main] keeps the invariant of the barrier. *)
Lemma step_main_barrier (o : option GoError) (n : nat) (p p' : Proc) :
  step (LMain o) p = Some p' -> barrier_inv n p -> barrier_inv n p'.
Proof.
  intros H [Hwg Hpc Hnn Hpast].
  pose proof (Hnn (step_running _ _ _ H)) as Hnn'.
  main_cases H o; bools; cbn [adds_done pc_ok past_barrier] in *;
    split; blocks;
    repeat match goal with E : main_pc _ = _ |- _ => rewrite E end;
    cbn [adds_done pc_ok past_barrier];
    try discriminate; try tauto; try lia.
Qed.

(** Every step keeps it, with one more callback counted when the step is a
    run of the on-connect callback. *)
Lemma step_barrier (l : Label) (n : nat) (p p' : Proc) :
  step l p = Some p' -> barrier_inv n p ->
  barrier_inv (if is_connect l then S n else n) p'.
Proof.
  intros H Hinv.
  destruct l as [o| | | | | | | | | | |];
    try (cbn [is_connect]; eapply step_main_barrier; eassumption).
  all: destruct (step_other_barrier _ _ _ H) as (Hpc & Hwg & Hnn);
    [discriminate|].
  all: destruct Hinv as [Iwg Ipc Inn Ipast]; cbn [is_connect] in *.
  all: pose proof (Inn (step_running _ _ _ H)).
  all: split; rewrite ?Hpc; auto; try lia.
Qed.

Lemma run_barrier (ls : list Label) :
  forall (n : nat) (p p' : Proc),
    run ls p = Some p' -> barrier_inv n p ->
    barrier_inv (count_connects ls + n) p'.
Proof.
  induction ls as [|l ls IH]; intros n p p' Hrun Hinv.
  - injection Hrun as <-. exact Hinv.
  - cbn [run] in Hrun. destruct (step l p) as [q|] eqn:Hstep; [|discriminate].
    pose proof (step_barrier _ _ _ _ Hstep Hinv) as Hq.
    specialize (IH _ _ _ Hrun Hq).
    unfold count_connects in *. cbn [filter].
    destruct (is_connect l); cbn [length].
    + replace (S (length (filter is_connect ls)) + n)%nat
        with (length (filter is_connect ls) + S n)%nat by lia.
      exact IH.
    + exact IH.
Qed.

Lemma barrier_init : barrier_inv 0 init.
Proof. split; cbn; intros; try lia; try discriminate; exact I. Qed.

Ltac calls_filter :=
  rewrite ?filter_app; cbn [filter is_add_or_connect Z.ltb Z.compare];
  rewrite ?app_nil_r.

(** Only [main] raises the counter or attempts a connect. *)
Lemma step_other_trace (l : Label) (p p' : Proc) :
  step l p = Some p' -> (forall o, l <> LMain o) ->
  main_pc p' = main_pc p
  /\ filter is_add_or_connect (calls p') = filter is_add_or_connect (calls p).
Proof.
  intros H Hl. other_step H Hl; split; try reflexivity; now calls_filter.
Qed.

(** The sequence grows by the increment, then by the connect, of client [i]. *)
Lemma firstn_snoc_trace (i : nat) :
  (i < 4)%nat ->
  (firstn (2 * i) add_connect_trace ++ [CWgAdd 1])%list
  = firstn (2 * i + 1) add_connect_trace
  /\ (firstn (2 * i + 1) add_connect_trace ++ [CConnect i])%list
     = firstn (2 * S i) add_connect_trace.
Proof.
  intros Hi.
  destruct i as [|[|[|[|i]]]]; try lia; split; reflexivity.
Qed.

Lemma step_main_trace (o : option GoError) (p p' : Proc) :
  step (LMain o) p = Some p' -> trace_inv p -> trace_inv p'.
Proof.
  intros H [Hpc Hrun Hpre].
  pose proof (Hrun (or_introl (step_running _ _ _ H))) as Hcalls.
  main_cases H o; bools; cbn [pc_ok progress past_barrier loop_done] in *;
    split; blocks;
    repeat match goal with E : main_pc _ = _ |- _ => rewrite E end;
    cbn [pc_ok progress past_barrier loop_done]; try tauto; try lia;
    try (intros [Hs|Hp]; try discriminate);
    calls_filter; rewrite ?Hcalls;
    try reflexivity; try (eexists; reflexivity).
  all: try match goal with
       | Hi : (?i < 4)%nat |- _ =>
           destruct (firstn_snoc_trace i Hi) as [Ha Hc]
       end.
  all: try (replace i with 4%nat by lia; reflexivity).
  all: try (rewrite ?Ha, ?Hc; first [reflexivity | eexists; reflexivity]).
  all: try (exists (2 * 4)%nat; replace i with 4%nat by lia; reflexivity).
Qed.

Lemma step_trace (l : Label) (p p' : Proc) :
  step l p = Some p' -> trace_inv p -> trace_inv p'.
Proof.
  intros H Hinv.
  destruct l as [o| | | | | | | | | | |];
    try (eapply step_main_trace; eassumption).
  all: destruct (step_other_trace _ _ _ H) as (Hpc & Hcalls); [discriminate|].
  all: destruct Hinv as [Ipc Irun Ipre].
  all: split; rewrite ?Hpc, ?Hcalls; auto.
  all: intros _; apply Irun; left; eapply step_running; eassumption.
Qed.

Lemma run_trace (ls : list Label) (p p' : Proc) :
  run ls p = Some p' -> trace_inv p -> trace_inv p'.
Proof. apply run_invariant, step_trace. Qed.

Lemma trace_init : trace_inv init.
Proof.
  split; cbn; auto. exists 0%nat. reflexivity.
Qed.

(** A step of [main] leaves the counter alone or is the [wg.Add(1)] of the
    loop; from [wg.Wait()] it goes on only when the counter is zero. *)
Lemma step_main_wg (o : option GoError) (p p' : Proc) :
  step (LMain o) p = Some p' -> 0 <= wg p ->
  (wg p' = wg p
   \/ exists i, main_pc p = pcLoopAdd i /\ main_pc p' = pcLoopConnect i
                /\ wg p' = wg p + 1)
  /\ (main_pc p = pcWait -> wg p = 0 /\ main_pc p' = pcLogAllConnected).
Proof.
  intros H Hnn.
  main_cases H o; bools; split; try (intros; discriminate); try lia;
    try (left; reflexivity); try (right; eexists; repeat split; reflexivity).
  all: intros _; split; [assumption | reflexivity].
Qed.

Lemma length_connects (ls : list Label) :
  length (connects ls) = count_connects ls.
Proof.
  unfold count_connects.
  induction ls as [|l ls IH]; [reflexivity|].
  destruct l; cbn [connects filter is_connect length]; now rewrite ?IH.
Qed.

(** Four or more connections, no two of the same client, each of one of
    the clients 0..3: every client has one. *)
Lemma every_client_among (owner : SrvClient -> nat) (cs : list SrvClient) :
  NoDup (map owner cs) ->
  (forall c, In c cs -> (owner c < 4)%nat) ->
  (4 <= length cs)%nat ->
  forall i, (i < 4)%nat -> exists c, In c cs /\ owner c = i.
Proof.
  intros Hnd Hlt Hlen i Hi.
  assert (Hincl : incl (seq 0 4) (map owner cs)).
  { apply NoDup_length_incl; [exact Hnd | |].
    - now rewrite length_map, length_seq.
    - intros k Hk. apply in_map_iff in Hk as (c & <- & Hc).
      apply in_seq. specialize (Hlt c Hc). lia. }
  assert (Hin : In i (map owner cs)) by (apply Hincl, in_seq; lia).
  apply in_map_iff in Hin as (c & Ho & Hc). now exists c.
Qed.

Lemma run_startup : run startup_run init = Some after_startup.
Proof. vm_compute. reflexivity. Qed.

(** What the barrier does guarantee.  In every run of the process, (1) the
    calls that raise the counter
    and the connect attempts form a prefix of Add, Connect 0, Add,
    Connect 1, Add, Connect 2, Add, Connect 3: one increment by one before
    each connect attempt; (2) the counter equals the number of increments
    made minus the number of times the on-connect callback ran, and a
    step that lowers it is a run of that callback; (3) [main] leaves
    [wg.Wait()] only from a state in which the counter is zero; and
    (4) when [main] is past the barrier, all four increments and connect
    attempts were made and the on-connect callback ran at least four
    times (exactly four times while the process is running).  The
    callback does not look at whose connection it runs for: only if those
    runs happen to be for connections of the four clients, no two for the
    same client, has every one of the four clients connected. *)
Theorem startup_barrier (ls : list Label) (p : Proc) :
  run ls init = Some p ->
  (exists k, filter is_add_or_connect (calls p) = firstn k add_connect_trace)
  /\ wg p = adds_done (main_pc p) - Z.of_nat (count_connects ls)
  /\ (forall (l : Label) (p' : Proc), step l p = Some p' ->
        (wg p' < wg p -> exists c, l = LSrvConnect c)
        /\ (wg p < wg p' ->
              exists o i, l = LMain o /\ main_pc p = pcLoopAdd i
                          /\ main_pc p' = pcLoopConnect i /\ wg p' = wg p + 1)
        /\ (main_pc p = pcWait -> main_pc p' <> pcWait -> wg p = 0))
  /\ (past_barrier (main_pc p) = true ->
        filter is_add_or_connect (calls p) = add_connect_trace
        /\ (4 <= count_connects ls)%nat
        /\ (status p = Running -> count_connects ls = 4%nat /\ wg p = 0)
        /\ (forall owner : SrvClient -> nat,
              NoDup (map owner (connects ls)) ->
              (forall c, In c (connects ls) -> (owner c < 4)%nat) ->
              forall i, (i < 4)%nat ->
                exists c, In c (connects ls) /\ owner c = i)).
Proof.
  intros Hrun.
  pose proof (run_barrier _ _ _ _ Hrun barrier_init) as Hb.
  rewrite Nat.add_0_r in Hb.
  pose proof (run_trace _ _ _ Hrun trace_init) as Ht.
  destruct Hb as [Hwg Hpc Hnn Hpast]. destruct Ht as [_ Htr Hpre].
  split; [exact Hpre|]. split; [exact Hwg|]. split.
  - intros l p' Hstep.
    pose proof (Hnn (step_running _ _ _ Hstep)) as Hpos.
    destruct l as [o| | | | | | | | | | |].
    1: { destruct (step_main_wg _ _ _ Hstep Hpos) as [Hw Hwait].
         split; [|split].
         - destruct Hw as [Hw|(i & _ & _ & Hw)]; lia.
         - intros Hlt. destruct Hw as [Hw|(i & Ha & Hc & Hw)]; [lia|].
           exists o, i. auto.
         - intros Hat _. apply Hwait, Hat. }
    all: destruct (step_other_barrier _ _ _ Hstep) as (Hsame & Hw & _);
      [discriminate|]; cbn [is_connect] in Hw.
    all: split; [|split]; try lia; try (intros _; eexists; reflexivity).
    all: intros Hat Hne; congruence.
  - intros Hp. split; [|split; [|split]].
    + rewrite Htr by (right; destruct (main_pc p); try discriminate Hp; reflexivity).
      destruct (main_pc p); try discriminate Hp; reflexivity.
    + apply Hpast, Hp.
    + intros Hs. specialize (Hnn Hs). specialize (Hpast Hp).
      destruct (main_pc p); try discriminate Hp; cbn [adds_done] in Hwg; lia.
    + intros owner Hnd Hlt. apply every_client_among; auto.
      rewrite length_connects. apply Hpast, Hp.
Qed.

Lemma startup_barrier_witness :
  run startup_run init = Some after_startup
  /\ past_barrier (main_pc after_startup) = true
  /\ filter is_add_or_connect (calls after_startup) = add_connect_trace
  /\ (4 <= count_connects startup_run)%nat
  /\ forall i, (i < 4)%nat ->
       exists c, In c (connects startup_run) /\ startup_owner c = i.
Proof.
  split; [exact run_startup|]. split; [reflexivity|].
  destruct (startup_barrier startup_run after_startup run_startup)
    as (_ & _ & _ & Hpast).
  destruct (Hpast eq_refl) as (Htrace & Hcount & _ & Hall).
  split; [exact Htrace|]. split; [exact Hcount|].
  apply Hall.
  - cbn. repeat constructor; cbn; intuition discriminate.
  - intros c Hc. cbn in Hc.
    destruct Hc as [<-|[<-|[<-|[<-|[]]]]]; cbn; lia.
Defined.

(** C1: the barrier does not wait for the four clients.  In
    [outsider_run] the on-connect callback runs for a connection from
    outside and for the connections of the clients 0, 1 and 2; [main] is
    then past [wg.Wait()], the counter is zero and the process is running,
    having logged that all clients are connected.  Client 3 was created
    and its [Connect] was called, but no callback has run for its
    connection, its connected handler has not run and it holds no
    subscription.  When the broker then handles the connection of
    client 3, the callback lowers the counter below zero and the process
    ends in the panic of [wg.Done()]. *)
Theorem barrier_passed_without_fourth_client :
  run outsider_run init = Some after_outsider
  /\ past_barrier (main_pc after_outsider) = true
  /\ status after_outsider = Running
  /\ wg after_outsider = 0
  /\ In (mkLog InfoLevel "all client  connected") (logs after_outsider)
  /\ connects outsider_run
     = [conn "outsider"; conn "c0"; conn "c1"; conn "c2"]
  /\ In (CConnect 3) (calls after_outsider)
  /\ (exists c, client_at 3 after_outsider = Some c /\ subs c = [])
  /\ connected_seen 3 outsider_run = false
  /\ (forall h, has_hook (conn "c3") h after_outsider = false)
  /\ (exists p, step (LSrvConnect (conn "c3")) after_outsider = Some p
                /\ status p = Crashed "sync: negative WaitGroup counter"
                /\ wg p = -1).
Proof.
  split; [vm_compute; reflexivity|].
  do 3 (split; [reflexivity|]).
  split; [vm_compute; tauto|].
  split; [reflexivity|].
  split; [vm_compute; tauto|].
  split; [eexists; split; reflexivity|].
  split; [reflexivity|].
  split; [intros []; reflexivity|].
  eexists. split; [vm_compute; reflexivity|]. split; reflexivity.
Qed.

(** ** What the program asks of its libraries *)

Ltac calls_ok Hok :=
  rewrite ?forallb_app, ?Hok; reflexivity.

(** The calls a step makes have the shape that [call_ok] describes. *)
Lemma step_other_calls (l : Label) (p p' : Proc) :
  step l p = Some p' -> (forall o, l <> LMain o) ->
  forallb call_ok (calls p) = true -> forallb call_ok (calls p') = true.
Proof.
  intros H Hl Hok. other_step H Hl; calls_ok Hok.
Qed.

Lemma step_main_calls (o : option GoError) (p p' : Proc) :
  step (LMain o) p = Some p' ->
  forallb call_ok (calls p) = true -> forallb call_ok (calls p') = true.
Proof.
  intros H Hok. main_cases H o; calls_ok Hok.
Qed.

Lemma step_calls (l : Label) (p p' : Proc) :
  step l p = Some p' ->
  forallb call_ok (calls p) = true -> forallb call_ok (calls p') = true.
Proof.
  intros Hstep.
  destruct l as [o| | | | | | | | | | |];
    try (eapply step_main_calls; eassumption).
  all: eapply step_other_calls; try eassumption; discriminate.
Qed.

Lemma run_calls (ls : list Label) (p p' : Proc) :
  run ls p = Some p' ->
  forallb call_ok (calls p) = true -> forallb call_ok (calls p') = true.
Proof.
  apply (run_invariant (fun q => forallb call_ok (calls q) = true)), step_calls.
Qed.

(** Every call made in a run from the initial state has the shape that
    [call_ok] describes. *)

Lemma reachable_calls (ls : list Label) (p : Proc) (c : Call) :
  run ls init = Some p -> In c (calls p) -> call_ok c = true.
Proof.
  intros Hrun Hin.
  pose proof (run_calls _ _ _ Hrun eq_refl) as Hok.
  rewrite forallb_forall in Hok. apply Hok, Hin.
Qed.

Lemma run_rpc : run rpc_run init = Some after_rpc.
Proof. vm_compute. reflexivity. Qed.

(** C9: [handleRPC] does the same whatever callback it is given, so it
    does not call it; and in no run of the process is a reply to an RPC,
    success or error, ever sent through the broker's callback. *)
Theorem rpc_never_replied :
  (forall (e : RPCEvent) (c c' : RPCCallback) (p : Proc),
      handleRPC e c p = handleRPC e c' p)
  /\ (forall (ls : list Label) (p : Proc),
        run ls init = Some p ->
        forall client reply err, ~ In (CRPCReply client reply err) (calls p)).
Proof.
  split; [reflexivity|].
  intros ls p Hrun client reply err Hin.
  pose proof (reachable_calls _ _ _ Hrun Hin) as Hok. discriminate Hok.
Qed.

Lemma rpc_never_replied_witness :
  run rpc_run init = Some after_rpc
  /\ (exists m, In (mkLog InfoLevel m) (logs after_rpc) /\ m = "client RPC: ping {}")
  /\ forall client reply err, ~ In (CRPCReply client reply err) (calls after_rpc).
Proof.
  split; [exact run_rpc|]. split.
  - eexists. split; [|reflexivity]. vm_compute. tauto.
  - exact (proj2 rpc_never_replied rpc_run after_rpc run_rpc).
Defined.

(** ** The clients slice *)

(** Facts about [update_at]. *)
Lemma forallb_update_at {A} (P : A -> bool) (f : A -> A) (i : nat) (l : list A) :
  (forall x, P x = true -> P (f x) = true) ->
  forallb P l = true -> forallb P (update_at i f l) = true.
Proof.
  intros Hf. revert i.
  induction l as [|x t IH]; intros i H; [destruct i; exact H|].
  cbn [forallb] in H. apply andb_true_iff in H as [Hx Ht].
  destruct i as [|j]; cbn [update_at forallb]; apply andb_true_iff; split; auto.
Qed.

Lemma nth_error_update_at {A} (f : A -> A) (i j : nat) (l : list A) :
  nth_error (update_at i f l) j
  = if (j =? i)%nat then option_map f (nth_error l j) else nth_error l j.
Proof.
  revert i j. induction l as [|x t IH]; intros i j.
  - destruct i, j; cbn; try reflexivity; now destruct (j =? i)%nat.
  - destruct i as [|i], j as [|j]; cbn [update_at nth_error Nat.eqb option_map];
      try reflexivity.
    apply IH.
Qed.

Lemma length_update_at {A} (f : A -> A) (i : nat) (l : list A) :
  length (update_at i f l) = length l.
Proof.
  revert i. induction l as [|x t IH]; intros [|i]; cbn; auto.
Qed.

Lemma update_at_compose {A} (f g : A -> A) (i : nat) (l : list A) :
  update_at i f (update_at i g l) = update_at i (fun x => f (g x)) l.
Proof.
  revert i. induction l as [|x t IH]; intros [|i]; cbn [update_at];
    try reflexivity.
  now rewrite IH.
Qed.

Lemma shape_update_at (f : Client -> Client) (i : nat) (l : list (option Client)) :
  shape (update_at i (option_map f) l) = shape l.
Proof.
  revert i. induction l as [|x t IH]; intros i; [destruct i; reflexivity|].
  destruct i as [|i]; cbn [update_at shape map] in *.
  - destruct x; reflexivity.
  - f_equal. apply IH.
Qed.

Lemma shape_store (c : Client) (i j : nat) (l : list (option Client)) :
  (i < length l)%nat ->
  nth_error (shape (update_at i (fun _ => Some c) l)) j
  = if (j =? i)%nat then Some true else nth_error (shape l) j.
Proof.
  intros Hi. unfold shape. rewrite nth_error_map, nth_error_update_at.
  destruct (j =? i)%nat eqn:E.
  - apply Nat.eqb_eq in E. subst j.
    destruct (nth_error l i) eqn:En; [reflexivity|].
    apply nth_error_None in En. lia.
  - now rewrite nth_error_map.
Qed.


Lemma slot_ok_map (f : Client -> Client) :
  (forall c, client_ok c = true -> client_ok (f c) = true) ->
  forall oc, slot_ok oc = true -> slot_ok (option_map f oc) = true.
Proof. intros Hf [c|]; cbn; auto. Qed.

Lemma client_ok_add_sub (s : Subscription) (c : Client) :
  sub_ok s = true -> client_ok c = true -> client_ok (add_sub s c) = true.
Proof.
  unfold client_ok. cbn. intros Hs Hc.
  apply andb_true_iff in Hc as [He Hsubs].
  now rewrite He, Hs, Hsubs.
Qed.

Lemma client_ok_on_newest_sub (f : Subscription -> Subscription) (c : Client) :
  (forall s, sub_ok s = true -> sub_ok (f s) = true) ->
  client_ok c = true -> client_ok (on_newest_sub f c) = true.
Proof.
  unfold client_ok, on_newest_sub. cbn [endpoint subs]. intros Hf Hc.
  apply andb_true_iff in Hc as [He Hsubs].
  rewrite He. cbn [andb]. now apply forallb_update_at.
Qed.

Ltac slots :=
  repeat first
    [ assumption
    | apply forallb_update_at; [apply slot_ok_map; intros ? ?|]
    | apply client_ok_add_sub; [reflexivity|]
    | apply client_ok_on_newest_sub; [intros ? ?; assumption|] ].

Ltac calls_in :=
  first [ assumption
        | apply in_or_app; right; left; reflexivity
        | apply in_or_app; left; calls_in ].

(** A step of anything but [main] keeps the slice in shape, its clients on
    the endpoint and their subscriptions on the channel; calls are only
    added; and the listener serves only after [ListenAndServe] on port
    8000. *)
Lemma step_other_clients (l : Label) (p p' : Proc) :
  step l p = Some p' -> (forall o, l <> LMain o) ->
  main_pc p' = main_pc p
  /\ (forallb slot_ok (clients p) = true -> forallb slot_ok (clients p') = true)
  /\ shape (clients p') = shape (clients p)
  /\ (forall c, In c (calls p) -> In c (calls p'))
  /\ (is_serving p' = true ->
      is_serving p = true \/ In (CListenAndServe ":8000") (calls p')).
Proof.
  intros H Hl. other_step H Hl.
  all: split; [reflexivity|]. all: split; [intros Hok; slots|].
  all: split; [rewrite ?shape_update_at; reflexivity|].
  all: split; [intros ? ?; calls_in|].
  all: try (intros Hs; left; exact Hs).
  all: try (intros _; left; reflexivity).
  all: intros _; right; calls_in.
Qed.

Lemma step_main_clients (o : option GoError) (p p' : Proc) :
  step (LMain o) p = Some p' -> clients_inv p -> clients_inv p'.
Proof.
  intros H [Hpc Hlen Hslots Hcreated Hserving].
  main_cases H o; bools; cbn [pc_ok created slice_made] in *;
    split; blocks;
    repeat match goal with E : main_pc _ = _ |- _ => rewrite E end;
    cbn [pc_ok created slice_made]; rewrite ?length_update_at;
    try tauto; try lia; try assumption;
    try (intros j Hj; apply Hcreated; lia);
    try (intros Hs; specialize (Hserving Hs); calls_in).
  all: try reflexivity.
  all: try (apply forallb_update_at; [reflexivity | assumption]).
  all: try (intros j Hj; rewrite shape_store by assumption;
            destruct (j =? i)%nat eqn:E; [reflexivity|];
            apply Nat.eqb_neq in E; apply Hcreated; lia).
  all: intros Hs; discriminate Hs.
Qed.

Lemma step_clients (l : Label) (p p' : Proc) :
  step l p = Some p' -> clients_inv p -> clients_inv p'.
Proof.
  intros H Hinv.
  destruct l as [o| | | | | | | | | | |];
    try (eapply step_main_clients; eassumption).
  all: destruct (step_other_clients _ _ _ H) as (Hpc & Hslots & Hshape & Hmono & Hserv);
    [discriminate|].
  all: destruct Hinv as [Ipc Ilen Islots Icreated Iserving].
  all: assert (Hlen : length (clients p') = length (clients p))
    by (apply (f_equal (@length bool)) in Hshape;
        unfold shape in Hshape; now rewrite !length_map in Hshape).
  all: split; rewrite ?Hpc, ?Hshape, ?Hlen; auto.
  all: intros Hs; destruct (Hserv Hs) as [Hs'|Hin]; auto.
Qed.

Lemma run_clients (ls : list Label) (p p' : Proc) :
  run ls p = Some p' -> clients_inv p -> clients_inv p'.
Proof. apply run_invariant, step_clients. Qed.

Lemma clients_init : clients_inv init.
Proof.
  split; cbn; auto; try discriminate. intros j Hj. lia.
Qed.



(** ** The clients subscribe *)












(** ** The final wait *)

(** Only the delivery of a relayed signal touches the channel, and only
    when it is empty. *)
Lemma step_other_signal (l : Label) (p p' : Proc) :
  step l p = Some p' -> (forall o, l <> LMain o) ->
  main_pc p' = main_pc p /\ notified p' = notified p
  /\ (interrupt p' = interrupt p
      \/ exists s, l = LSignal s
                   /\ existsb (signal_eqb s) (notified p) = true
                   /\ interrupt p = Some [] /\ interrupt p' = Some [s]).
Proof.
  intros H Hl. other_step H Hl; repeat split; try (left; reflexivity).
  all: try (left; assumption).
  right; eexists; repeat split; assumption.
Qed.

(** The signals that [signal.Notify] was asked to relay. *)
Lemma notified_term (s : Signal) :
  existsb (signal_eqb s) [SIGINT; SIGTERM] = true <-> is_term_signal s.
Proof.
  unfold is_term_signal.
  destruct s; cbn; split; intros H; try discriminate; try reflexivity; auto;
    destruct H; discriminate.
Qed.

Lemma step_signal_inv (l : Label) (p p' : Proc) :
  step l p = Some p' -> signal_inv p -> signal_inv p'.
Proof.
  intros H [Hbefore Hafter].
  destruct l as [o| | | | | | | | | | |].
  1: { main_cases H o; cbn [handler_installed] in *;
       split; blocks;
       repeat match goal with E : main_pc _ = _ |- _ => rewrite E end;
       cbn [handler_installed]; try discriminate; auto.
       all: intros _.
       all: try (destruct (Hafter eq_refl) as [Hn Hbuf]; split; [exact Hn|]).
       all: destruct Hbuf as [Hb|(s0 & Hs0 & Hb)]; [discriminate|];
            injection Hb as -> ->; left; reflexivity. }
  all: destruct (step_other_signal _ _ _ H) as (Hpc & Hn & Hi); [discriminate|].
  all: split; rewrite Hpc, Hn; intros Hh.
  all: try (destruct Hi as [Hi|(s0 & Hl & _ & _ & _)]; [|discriminate Hl];
            rewrite Hi; auto).
  - destruct (Hbefore Hh) as [Hnot Hint]. split; [exact Hnot|].
    destruct Hi as [Hi|(s0 & _ & Hex & _)]; [now rewrite Hi|].
    rewrite Hnot in Hex. discriminate Hex.
  - destruct (Hafter Hh) as [Hnot Hbuf]. split; [exact Hnot|].
    destruct Hi as [Hi|(s0 & Hl & Hex & _ & Hnew)]; [now rewrite Hi|].
    right. exists s0. split; [|exact Hnew].
    rewrite Hnot in Hex. now apply notified_term.
Qed.

Lemma run_signal_inv (ls : list Label) (p p' : Proc) :
  run ls p = Some p' -> signal_inv p -> signal_inv p'.
Proof. apply run_invariant, step_signal_inv. Qed.

Lemma signal_init : signal_inv init.
Proof. split; cbn; auto; discriminate. Qed.

(** The three steps from the delivery of a signal to the return of [main]. *)
Lemma step_deliver (s : Signal) (p : Proc) :
  status p = Running -> step (LSignal s) p = Some (deliver s p).
Proof. intros Hst. unfold step. now rewrite Hst. Qed.

Lemma step_recv (o : option GoError) (p : Proc) (s : Signal) (rest : list Signal) :
  status p = Running -> main_pc p = pcRecv -> interrupt p = Some (s :: rest) ->
  step (LMain o) p
  = Some (set_pc pcLogExit
            (info ("received signal: " ++ signal_string s)
                  (set_interrupt (Some rest) p))).
Proof.
  intros Hst Hpc Hbuf. unfold step, main_step. now rewrite Hst, Hpc, Hbuf.
Qed.

Lemma step_exit (o : option GoError) (p : Proc) :
  status p = Running -> main_pc p = pcLogExit ->
  step (LMain o) p = Some (set_status Exited (set_pc pcReturned (info "exit" p))).
Proof.
  intros Hst Hpc. unfold step, main_step. now rewrite Hst, Hpc.
Qed.

(** C8: let the process be running with [main] at the receive from
    [interrupt], which is where it is once [signal.Notify] has been
    called.  Then (1) delivering SIGINT or SIGTERM and letting [main] take
    its next two steps ends the process by a return from [main], after it
    logged the signal received and "exit"; and (2) while the channel is
    empty [main] cannot step, no step of anything else moves [main], and
    the only step that puts a value in the channel is the delivery of
    SIGINT or SIGTERM. *)
Theorem signal_ends_final_wait (ls : list Label) (p : Proc) :
  run ls init = Some p -> status p = Running -> main_pc p = pcRecv ->
  (forall s, is_term_signal s ->
     exists p',
       run [LSignal s; LMain None; LMain None] p = Some p'
       /\ status p' = Exited
       /\ is_term_signal (received s p)
       /\ logs p' = (logs p ++
            [mkLog InfoLevel ("received signal: " ++ signal_string (received s p));
             mkLog InfoLevel "exit"])%list)
  /\ (interrupt p = Some [] ->
      (forall o, step (LMain o) p = None)
      /\ forall l p', step l p = Some p' ->
           main_pc p' = pcRecv
           /\ (interrupt p' <> Some [] ->
               exists s, l = LSignal s /\ is_term_signal s
                         /\ interrupt p' = Some [s])).
Proof.
  intros Hrun Hst Hpc.
  pose proof (run_signal_inv _ _ _ Hrun signal_init) as [_ Hafter].
  rewrite Hpc in Hafter. destruct (Hafter eq_refl) as [Hnot Hbuf]. clear Hafter.
  split.
  - intros s Hs. unfold received.
    assert (Hex : existsb (signal_eqb s) (notified p) = true)
      by (rewrite Hnot; now apply notified_term).
    cbn [run]. rewrite (step_deliver s p Hst). unfold deliver. rewrite Hex.
    destruct Hbuf as [Hb|(s0 & Hs0 & Hb)]; rewrite Hb.
    + erewrite step_recv; [|exact Hst|exact Hpc|reflexivity].
      erewrite step_exit; [|exact Hst|reflexivity].
      eexists. split; [reflexivity|]. split; [reflexivity|]. split; [exact Hs|].
      cbn. now rewrite <- app_assoc.
    + erewrite step_recv; [|exact Hst|exact Hpc|exact Hb].
      erewrite step_exit; [|exact Hst|reflexivity].
      eexists. split; [reflexivity|]. split; [reflexivity|]. split; [exact Hs0|].
      cbn. now rewrite <- app_assoc.
  - intros Hempty. split.
    + intros o. unfold step. rewrite Hst. unfold main_step.
      rewrite Hpc, Hempty. reflexivity.
    + intros l p' Hstep.
      destruct l as [o| | | | | | | | | | |].
      1: { unfold step in Hstep. rewrite Hst in Hstep. unfold main_step in Hstep.
           rewrite Hpc, Hempty in Hstep. discriminate. }
      all: destruct (step_other_signal _ _ _ Hstep) as (Hsame & _ & Hi);
        [discriminate|].
      all: split; [congruence|]; intros Hne.
      all: destruct Hi as [Hi|(s0 & Hl & Hex & _ & Hnew)];
        [congruence | try discriminate Hl].
      exists s0. split; [exact Hl|]. split; [|exact Hnew].
      rewrite Hnot in Hex. now apply notified_term.
Qed.

Lemma signal_ends_final_wait_witness :
  run startup_run init = Some after_startup
  /\ status after_startup = Running /\ main_pc after_startup = pcRecv
  /\ exists p',
       run [LSignal SIGTERM; LMain None; LMain None] after_startup = Some p'
       /\ status p' = Exited
       /\ logs p' = (logs after_startup ++
            [mkLog InfoLevel "received signal: terminated";
             mkLog InfoLevel "exit"])%list.
Proof.
  split; [exact run_startup|]. split; [reflexivity|]. split; [reflexivity|].
  destruct (signal_ends_final_wait startup_run after_startup run_startup
              eq_refl eq_refl)
    as [Hexit _].
  destruct (Hexit SIGTERM (or_intror eq_refl)) as (p' & Hr & Hs & _ & Hl).
  exists p'. split; [exact Hr|]. split; [exact Hs|]. exact Hl.
Defined.

(** ** Failures *)

(** A failed activation: [Subscribe] returns an error on a subscription
    that was created.  The handler logs it and returns; the client keeps
    the subscription, marked as not subscribed. *)
Lemma activation_failure_is_logged (i : nat) (err : GoError) (p : Proc) :
  exists p',
    on_connected i (mkNewSub true None) (Some err) p = (Val tt, p')
    /\ logs p' = (logs p ++ [mkLog InfoLevel "Connected";
                             mkLog ErrorLevel ("subscription error: " ++ err)])%list
    /\ status p' = status p /\ wg p' = wg p /\ main_pc p' = main_pc p.
Proof.
  eexists. split; [reflexivity|]. cbn. rewrite <- app_assoc. auto.
Qed.

(** A process that was ended takes no further step. *)
Lemma ended_is_stuck (l : Label) (p : Proc) :
  status p <> Running -> step l p = None.
Proof.
  intros Hst. unfold step. destruct (status p); congruence.
Qed.

(** C2 (the code falls short of it): when [NewSubscription] returns a nil
    subscription and an error, the connected handler logs the error and
    goes on to call [OnJoin] on the nil subscription, which panics: the
    failure is not only logged, it ends the process.  In the run shown it
    does so while [main] is about to create the second client, and no
    step follows. *)
Theorem creation_failure_panics :
  (forall (i : nat) (err : GoError) (subscribeErr : option GoError) (p : Proc),
      exists p',
        on_connected i (mkNewSub false (Some err)) subscribeErr p
        = (Panic nil_dereference, p')
        /\ logs p' = (logs p ++ [mkLog InfoLevel "Connected";
                        mkLog ErrorLevel ("subscription creation error: " ++ err)])%list
        /\ status (exec (on_connected i (mkNewSub false (Some err)) subscribeErr) p)
           = Crashed nil_dereference)
  /\ option_map (fun p => (status p, main_pc p)) (run creation_failure_run init)
     = Some (Crashed nil_dereference, pcLoopCreate 1)
  /\ (forall l, run (creation_failure_run ++ [l]) init = None).
Proof.
  split; [|split; [vm_compute; reflexivity|]].
  - intros i err subscribeErr p. eexists. split; [reflexivity|].
    cbn. rewrite <- app_assoc. auto.
  - intros l.
    destruct (run creation_failure_run init) as [p|] eqn:Hrun;
      [|vm_compute in Hrun; discriminate].
    assert (Hp : status p = Crashed nil_dereference)
      by (vm_compute in Hrun; injection Hrun as <-; reflexivity).
    assert (Hsplit : forall ls q, run ls init = Some q ->
              run (ls ++ [l]) init = step l q).
    { intros ls. generalize init.
      induction ls as [|x ls IH]; intros q0 q Hq; cbn [run app] in *.
      - injection Hq as ->. now destruct (step l q).
      - destruct (step x q0); [now apply IH | discriminate]. }
    rewrite (Hsplit _ _ Hrun). apply ended_is_stuck. rewrite Hp. discriminate.
Qed.

(** Each of the failures that [fatal_label] lists ends the process. *)
Lemma listed_failures_abort (err : GoError) (p : Proc) :
  status p = Running ->
  (main_pc p = pcNodeNew ->
   option_map status (step (LMain (Some err)) p)
   = Some (Crashed ("error instantiating new centrifuge node: " ++ err)))
  /\ (main_pc p = pcNodeRun ->
      option_map status (step (LMain (Some err)) p)
      = Some (Crashed ("error running centrifuge node: " ++ err)))
  /\ (forall i, main_pc p = pcLoopConnect i ->
      option_map status (step (LMain (Some err)) p)
      = Some (Crashed ("connect client " ++ itoa i ++ " error: " ++ err)))
  /\ (is_serving p = true ->
      option_map status (step (LListenReturn err) p)
      = Some (Crashed ("error listening on :8000: " ++ err))).
Proof.
  intros Hst. unfold step, main_step, guard. rewrite Hst.
  split; [|split; [|split]].
  - intros ->. reflexivity.
  - intros ->. reflexivity.
  - intros i ->. reflexivity.
  - intros ->. reflexivity.
Qed.

(** C3 (the code falls short of it): two runs in which none of the listed
    failures occurs and the process is nevertheless ended by a panic: one
    by the failed creation of a subscription, one by a fifth connection,
    whose on-connect callback takes the counter below zero. *)
Theorem aborts_outside_the_listed_failures :
  (forallb (fun l => negb (fatal_label l)) creation_failure_run = true
   /\ option_map status (run creation_failure_run init)
      = Some (Crashed nil_dereference))
  /\ (forallb (fun l => negb (fatal_label l)) fifth_connection_run = true
      /\ option_map status (run fifth_connection_run init)
         = Some (Crashed "sync: negative WaitGroup counter")).
Proof.
  repeat split; vm_compute; reflexivity.
Qed.

(** ** The authentication middleware *)

Lemma Value_SetCredentials_other (c : Context) (cred : Credentials) (k : CtxKey) :
  k <> credentialsContextKey ->
  Value (SetCredentials c cred) k = Value c k.
Proof.
  intros Hk. destruct k as [|name]; [congruence | reflexivity].
Qed.

Lemma run_upgrade : run upgrade_run init = Some after_upgrade.
Proof. vm_compute. reflexivity. Qed.

(** C4: whatever the request carries (headers, body, a context that
    already holds credentials), [auth] hands the wrapped handler a request
    whose context holds the credentials of the anonymous user, whose
    identity is the empty string; and in every run, every request that
    reached the websocket handler of the upgrade route carries credentials
    with the empty identity. *)
Theorem auth_attaches_anonymous_credentials :
  (forall (w : ResponseWriter) (r : Request),
     exists r' : Request,
       (forall (h : Handler) (p : Proc), auth h w r p = h w r' p)
       /\ GetCredentials (RContext r') = Some anonymous)
  /\ UserID anonymous = ""
  /\ (forall (ls : list Label) (p : Proc),
        run ls init = Some p ->
        forall w r', In (CServeWebsocket w r') (calls p) ->
          exists cred, GetCredentials (RContext r') = Some cred
                       /\ UserID cred = "").
Proof.
  split; [|split; [reflexivity|]].
  - intros w r.
    exists (WithContext r (SetCredentials (RContext r) anonymous)).
    split; reflexivity.
  - intros ls p Hrun w r' Hin.
    apply (reachable_calls _ _ _ Hrun) in Hin. cbn [call_ok] in Hin.
    destruct (GetCredentials (RContext r')) as [cred|]; [|discriminate].
    exists cred. split; [reflexivity|]. now apply String.eqb_eq.
Qed.

Lemma auth_attaches_anonymous_credentials_witness :
  run upgrade_run init = Some after_upgrade
  /\ GetCredentials (RContext admin_request) = Some (mkCred "admin" 0 "")
  /\ exists r', In (CServeWebsocket 7%nat r') (calls after_upgrade)
                /\ Header r' = Header admin_request
                /\ exists cred, GetCredentials (RContext r') = Some cred
                                /\ UserID cred = "".
Proof.
  split; [exact run_upgrade|]. split; [reflexivity|].
  eexists. split; [|split].
  - cbn. repeat (first [left; reflexivity | right]).
  - reflexivity.
  - apply (proj2 (proj2 auth_attaches_anonymous_credentials)
             upgrade_run after_upgrade run_upgrade 7%nat).
    cbn. repeat (first [left; reflexivity | right]).
Defined.

(** C10: [auth] calls the wrapped handler once, with the response writer
    it was given and with the request it was given except for its
    context: method, URL, headers and body are the same, and so is every
    context value other than the credentials. *)
Theorem auth_calls_handler_once_preserving_request (w : ResponseWriter) (r : Request) :
  exists r' : Request,
    (forall (h : Handler) (p : Proc), auth h w r p = h w r' p)
    /\ Method r' = Method r /\ URL r' = URL r
    /\ Header r' = Header r /\ Body r' = Body r
    /\ (forall k, k <> credentialsContextKey ->
                  Value (RContext r') k = Value (RContext r) k)
    /\ (forall p : Proc,
          exec (auth wsHandler w r) p
          = set_calls (fun cs => (cs ++ [CServeWebsocket w r'])%list) p).
Proof.
  exists (WithContext r (SetCredentials (RContext r) anonymous)).
  repeat split.
  intros k Hk. apply Value_SetCredentials_other, Hk.
Qed.

Lemma auth_calls_handler_once_preserving_request_witness :
  otherKey "trace" <> credentialsContextKey
  /\ exists r' : Request,
       calls (exec (auth wsHandler 7%nat admin_request) init) = [CServeWebsocket 7%nat r']
       /\ Header r' = Header admin_request
       /\ Value (RContext r') (otherKey "trace") = Some (otherVal "t1").
Proof.
  split; [discriminate|].
  destruct (auth_calls_handler_once_preserving_request 7%nat admin_request)
    as (r' & _ & _ & _ & Hh & _ & Hctx & Hcall).
  exists r'. split; [|split].
  - rewrite Hcall. reflexivity.
  - exact Hh.
  - rewrite Hctx by discriminate. reflexivity.
Defined.

(** ** The server-side hooks *)

Lemma run_pubsub : run pubsub_run init = Some after_pubsub.
Proof. vm_compute. reflexivity. Qed.

(** C5: for every server-side client and every subscribe or publish
    event, the hook writes its log entry and then calls the callback it
    was given, once, with the zero reply and a nil error, without looking
    at the event; with the broker's callback that is one success reply
    per event, and in no run is a subscribe or publish answered with an
    error. *)
Theorem subscribe_and_publish_always_accepted :
  (forall (client : SrvClient) (e : SubscribeEvent) (cb : SubscribeCallback) (p : Proc),
      on_subscribe client e cb p
      = cb SubscribeReplyZero None
           (info (who client ++ " subscribes on channel " ++ seChannel e) p))
  /\ (forall (client : SrvClient) (e : PublishEvent) (cb : PublishCallback) (p : Proc),
      on_publish client e cb p
      = cb PublishReplyZero None
           (info (who client ++ " publishes into channel " ++ peChannel e
                  ++ ": " ++ peData e) p))
  /\ (forall (client : SrvClient) (e : SubscribeEvent) (p : Proc),
      let p' := exec (on_subscribe client e (reply_subscribe client)) p in
      calls p' = (calls p ++ [CSubscribeReply (ID client) SubscribeReplyZero None])%list
      /\ status p' = status p)
  /\ (forall (client : SrvClient) (e : PublishEvent) (p : Proc),
      let p' := exec (on_publish client e (reply_publish client)) p in
      calls p' = (calls p ++ [CPublishReply (ID client) PublishReplyZero None])%list
      /\ status p' = status p)
  /\ (forall (ls : list Label) (p : Proc),
        run ls init = Some p ->
        (forall client reply err,
            In (CSubscribeReply client reply err) (calls p) -> err = None)
        /\ (forall client reply err,
            In (CPublishReply client reply err) (calls p) -> err = None)).
Proof.
  do 4 (split; [repeat split|]).
  intros ls p Hrun.
  split; intros client reply err Hin;
    apply (reachable_calls _ _ _ Hrun) in Hin;
    (destruct err; [discriminate | reflexivity]).
Qed.

Lemma subscribe_and_publish_always_accepted_witness :
  run pubsub_run init = Some after_pubsub
  /\ In (CSubscribeReply "c0" SubscribeReplyZero None) (calls after_pubsub)
  /\ In (CPublishReply "c0" PublishReplyZero None) (calls after_pubsub)
  /\ forall client reply err,
       In (CPublishReply client reply err) (calls after_pubsub) -> err = None.
Proof.
  split; [exact run_pubsub|].
  split; [vm_compute; tauto|]. split; [vm_compute; tauto|].
  destruct subscribe_and_publish_always_accepted as (_ & _ & _ & _ & Hruns).
  exact (proj2 (Hruns pubsub_run after_pubsub run_pubsub)).
Defined.

(** C6: for every RPC event and whatever callback comes with it,
    [handleRPC] returns normally having appended one entry with the
    method name and the payload to the log; every other component of the
    process state is as before, and no reply was sent. *)
Theorem handleRPC_only_logs (e : RPCEvent) (c : RPCCallback) (p : Proc) :
  exists p' : Proc,
    handleRPC e c p = (Val tt, p')
    /\ logs p' = (logs p ++ [mkLog InfoLevel
                    ("client RPC: " ++ rpcMethod e ++ " " ++ rpcData e)])%list
    /\ wg p' = wg p /\ calls p' = calls p /\ clients p' = clients p
    /\ srvHooks p' = srvHooks p /\ onConnectSet p' = onConnectSet p
    /\ listener p' = listener p /\ interrupt p' = interrupt p
    /\ notified p' = notified p /\ main_pc p' = main_pc p
    /\ status p' = status p.
Proof.
  eexists. repeat split.
Qed.

(** ** Every way the process is ended by a panic *)

(** X14: in a run, a step that ends in a panic is one of: a failed
    [centrifuge.New], [node.Run] or [Connect]; the return of
    [http.ListenAndServe]; a connected event with a nil subscription; an
    on-connect callback run with the counter at zero. *)
Lemma abort_causes (ls : list Label) (p p' : Proc) (l : Label) (v : string) :
  run ls init = Some p -> step l p = Some p' -> status p' = Crashed v ->
  abort_cause l p.
Proof.
  intros Hrun Hstep Hcrash.
  pose proof (run_barrier _ _ _ _ Hrun barrier_init) as [_ Hpc Hnn _].
  pose proof (run_clients _ _ _ Hrun clients_init) as [_ Hlen _ _ _].
  pose proof (Hnn (step_running _ _ _ Hstep)) as Hpos. clear Hnn.
  assert (Hl : (exists o, l = LMain o) \/ forall o, l <> LMain o)
    by (destruct l; try (right; discriminate); left; eexists; reflexivity).
  destruct Hl as [[o ->]|Hl].
  - main_cases Hstep o; bools; cbn [pc_ok slice_made] in *;
      try congruence; try (specialize (Hlen eq_refl)); try lia.
    + apply AbortNodeNew; assumption.
    + apply AbortNodeRun; assumption.
    + eapply AbortConnect; eassumption.
  - revert Hcrash. other_step Hstep Hl; intros Hcrash;
      bools; try congruence; try discriminate.
    all: constructor; first [reflexivity | lia].
Qed.

(** * Further properties *)

(** ** The counter *)

Lemma step_counter_sound (l : Label) (p p' : Proc) :
  step l p = Some p' -> counter_sound p -> counter_sound p'.
Proof.
  intros H Hs.
  assert (Hpos : 0 <= wg p).
  { destruct Hs as [Hs|[_ Hs]]; [exact Hs|].
    rewrite (step_running _ _ _ H) in Hs. discriminate. }
  clear Hs. unfold counter_sound.
  assert (Hl : (exists o, l = LMain o) \/ forall o, l <> LMain o)
    by (destruct l; try (right; discriminate); left; eexists; reflexivity).
  destruct Hl as [[o ->]|Hl].
  - main_cases H o; bools; left; lia.
  - other_step H Hl; bools; try (left; lia).
    right. split; [lia | reflexivity].
Qed.

(** X1: in every run the WaitGroup counter stays between -1 and 4; it is
    between 0 and 4 while the process runs, and it is -1 only in a
    process that the panic of [wg.Add] has ended. *)
Theorem counter_bounds (ls : list Label) (p : Proc) :
  run ls init = Some p ->
  -1 <= wg p <= 4
  /\ (status p = Running -> 0 <= wg p)
  /\ (wg p < 0 ->
      wg p = -1 /\ status p = Crashed "sync: negative WaitGroup counter").
Proof.
  intros Hrun.
  pose proof (run_barrier _ _ _ _ Hrun barrier_init) as [Hwg Hpc Hnn _].
  assert (Hs : counter_sound p).
  { apply (run_invariant counter_sound step_counter_sound ls init p Hrun).
    left. cbn. lia. }
  assert (Hup : wg p <= 4).
  { rewrite Hwg. destruct (main_pc p); cbn [adds_done pc_ok] in *; lia. }
  split; [|split].
  - destruct Hs as [Hs|[Hs _]]; lia.
  - exact Hnn.
  - intros Hneg. destruct Hs as [Hs|Hs]; [lia | exact Hs].
Qed.

Lemma run_at_wait : run waiting_run init = Some at_wait.
Proof. vm_compute. reflexivity. Qed.

Lemma counter_bounds_witness :
  run waiting_run init = Some at_wait
  /\ status at_wait = Running /\ 0 <= wg at_wait <= 4.
Proof.
  split; [exact run_at_wait|]. split; [reflexivity|].
  destruct (counter_bounds waiting_run at_wait run_at_wait) as (Hb & Hnn & _).
  split; [exact (Hnn eq_refl) | exact (proj2 Hb)].
Defined.

(** ** The server-side hooks *)

(** A step adds the hooks of the connection when it is a run of the
    on-connect callback, and no hook otherwise. *)
Lemma step_hooks (l : Label) (p p' : Proc) :
  step l p = Some p' ->
  srvHooks p' = (srvHooks p ++ match l with
                               | LSrvConnect c => hooks_of c
                               | _ => []
                               end)%list.
Proof.
  intros H.
  assert (Hl : (exists o, l = LMain o) \/ forall o, l <> LMain o)
    by (destruct l; try (right; discriminate); left; eexists; reflexivity).
  destruct Hl as [[o ->]|Hl].
  - main_cases H o; now rewrite app_nil_r.
  - other_step H Hl; rewrite ?app_nil_r; try reflexivity.
    all: unfold hooks_of; now rewrite <- !app_assoc.
Qed.

Lemma run_hooks (ls : list Label) :
  forall p p' : Proc,
    run ls p = Some p' ->
    srvHooks p' = (srvHooks p ++ flat_map hooks_of (connects ls))%list.
Proof.
  induction ls as [|l ls IH]; intros p p' Hrun.
  - injection Hrun as <-. cbn. now rewrite app_nil_r.
  - cbn [run] in Hrun. destruct (step l p) as [q|] eqn:Hstep; [|discriminate].
    rewrite (IH _ _ Hrun), (step_hooks _ _ _ Hstep).
    destruct l; cbn [connects flat_map]; rewrite ?app_nil_r;
      try reflexivity.
    now rewrite <- app_assoc.
Qed.

Lemma srvhook_eqb_refl (h : SrvHook) : srvhook_eqb h h = true.
Proof. now destruct h. Qed.

(** X2: in every run the hooks set on server-side clients are exactly
    those the on-connect callback sets, connection by connection in the
    order the callback ran; so a subscribe, publish, disconnect or RPC
    event of a client is handled if and only if the on-connect callback
    ran for a connection with that client's ID. *)
Theorem hooks_exactly_of_connects (ls : list Label) (p : Proc) :
  run ls init = Some p ->
  srvHooks p = flat_map hooks_of (connects ls)
  /\ forall (c : SrvClient) (h : SrvHook),
       has_hook c h p = true <->
       exists c', In c' (connects ls) /\ ID c' = ID c.
Proof.
  intros Hrun. pose proof (run_hooks _ _ _ Hrun) as Hh. cbn [srvHooks init app] in Hh.
  split; [exact Hh|].
  intros c h. unfold has_hook. rewrite Hh, existsb_exists. split.
  - intros ([id h'] & Hin & Heq). cbn [fst snd] in Heq.
    apply andb_true_iff in Heq as [Hid _]. apply String.eqb_eq in Hid.
    apply in_flat_map in Hin as (c' & Hc' & Hin).
    exists c'. split; [exact Hc'|].
    unfold hooks_of in Hin. cbn in Hin.
    destruct Hin as [E|[E|[E|[E|[]]]]]; injection E as <- _; exact Hid.
  - intros (c' & Hc' & Hid).
    exists (ID c', h). split.
    + apply in_flat_map. exists c'. split; [exact Hc'|].
      unfold hooks_of. destruct h; cbn; tauto.
    + cbn [fst snd]. rewrite Hid, String.eqb_refl, srvhook_eqb_refl. reflexivity.
Qed.

Lemma hooks_exactly_of_connects_witness :
  run waiting_run init = Some at_wait
  /\ has_hook (conn "c1") HRPC at_wait = true
  /\ has_hook (conn "c2") HRPC at_wait = false.
Proof.
  split; [exact run_at_wait|].
  destruct (hooks_exactly_of_connects waiting_run at_wait run_at_wait) as [_ Hiff].
  split.
  - apply Hiff. exists (conn "c1"). split; [cbn; tauto | reflexivity].
  - destruct (has_hook (conn "c2") HRPC at_wait) eqn:E; [|reflexivity].
    apply Hiff in E. destruct E as (c' & Hin & Hid).
    cbn in Hin. destruct Hin as [<-|[<-|[]]]; discriminate Hid.
Defined.

(** ** Connections and the barrier *)

(** [node.OnConnect] is called at line 39 and the callback stays set. *)
Lemma step_registered (l : Label) (p p' : Proc) :
  step l p = Some p' ->
  (on_connect_registered (main_pc p) = true -> onConnectSet p = true) ->
  on_connect_registered (main_pc p') = true -> onConnectSet p' = true.
Proof.
  intros H Hinv.
  assert (Hl : (exists o, l = LMain o) \/ forall o, l <> LMain o)
    by (destruct l; try (right; discriminate); left; eexists; reflexivity).
  destruct Hl as [[o ->]|Hl].
  - main_cases H o; cbn [on_connect_registered] in *;
      repeat match goal with E : main_pc _ = _ |- _ => rewrite E end;
      cbn [on_connect_registered]; auto; discriminate.
  - other_step H Hl; exact Hinv.
Qed.

Lemma run_registered (ls : list Label) (p : Proc) :
  run ls init = Some p ->
  on_connect_registered (main_pc p) = true -> onConnectSet p = true.
Proof.
  intros Hrun.
  apply (run_invariant
           (fun q => on_connect_registered (main_pc q) = true ->
                     onConnectSet q = true)
           step_registered ls init p Hrun).
  discriminate.
Qed.

Lemma run_app (l1 l2 : list Label) (p : Proc) :
  run (l1 ++ l2) p
  = match run l1 p with Some q => run l2 q | None => None end.
Proof.
  revert p. induction l1 as [|l l1 IH]; intros p; cbn [run app]; [reflexivity|].
  destruct (step l p); [apply IH | reflexivity].
Qed.

(** A run of the on-connect callback with the counter above zero: the
    counter goes down by one and the process goes on. *)
Lemma step_connect_above_zero (c : SrvClient) (p : Proc) :
  status p = Running -> is_serving p = true -> onConnectSet p = true ->
  1 <= wg p ->
  exists q,
    step (LSrvConnect c) p = Some q
    /\ status q = Running /\ is_serving q = true /\ onConnectSet q = true
    /\ main_pc q = main_pc p /\ wg q = wg p - 1.
Proof.
  intros Hst Hsv Hreg Hwg.
  unfold step, guard. rewrite Hst, Hsv, Hreg. cbn [andb].
  eexists. split; [reflexivity|].
  unfold exec. blocks.
  destruct (wg p + -1 <? 0) eqn:E; bools; [lia|].
  blocks. repeat split; auto.
Qed.

Lemma run_connects_above_zero (cs : list SrvClient) :
  forall p : Proc,
    status p = Running -> is_serving p = true -> onConnectSet p = true ->
    Z.of_nat (length cs) <= wg p ->
    exists q,
      run (map LSrvConnect cs) p = Some q
      /\ status q = Running /\ is_serving q = true /\ onConnectSet q = true
      /\ main_pc q = main_pc p /\ wg q = wg p - Z.of_nat (length cs).
Proof.
  induction cs as [|c cs IH]; intros p Hst Hsv Hreg Hwg.
  - exists p. cbn. repeat split; auto. lia.
  - cbn [length] in Hwg.
    destruct (step_connect_above_zero c p Hst Hsv Hreg)
      as (q & Hstep & Hst' & Hsv' & Hreg' & Hpc' & Hwg'); [lia|].
    destruct (IH q Hst' Hsv' Hreg') as (r & Hrun & Hr); [lia|].
    exists r. cbn [map run]. rewrite Hstep. split; [exact Hrun|].
    destruct Hr as (? & ? & ? & Hpc'' & Hwg'').
    repeat split; auto; [congruence|]. cbn [length]. lia.
Qed.

(** X3: when [main] waits at [wg.Wait()] with the listener serving, as
    many runs of the on-connect callback as the counter shows, for any
    connections, bring the counter to zero without ending the process,
    and the next step of [main] takes it past the barrier. *)
Theorem barrier_opens (ls : list Label) (p : Proc) (cs : list SrvClient) :
  run ls init = Some p ->
  status p = Running -> main_pc p = pcWait -> is_serving p = true ->
  Z.of_nat (length cs) = wg p ->
  exists p',
    run (map LSrvConnect cs ++ [LMain None]) p = Some p'
    /\ status p' = Running /\ main_pc p' = pcLogAllConnected /\ wg p' = 0.
Proof.
  intros Hrun Hst Hpc Hsv Hlen.
  assert (Hreg : onConnectSet p = true)
    by (apply (run_registered _ _ Hrun); now rewrite Hpc).
  destruct (run_connects_above_zero cs p Hst Hsv Hreg)
    as (q & Hq & Hst' & _ & _ & Hpc' & Hwg'); [lia|].
  rewrite run_app, Hq. cbn [run].
  unfold step, main_step. rewrite Hst', Hpc', Hpc.
  replace (wg q) with 0 by lia. cbn [Z.eqb].
  eexists. split; [reflexivity|]. blocks. repeat split; auto. lia.
Qed.

Lemma barrier_opens_witness :
  run waiting_run init = Some at_wait
  /\ status at_wait = Running /\ main_pc at_wait = pcWait
  /\ is_serving at_wait = true /\ wg at_wait = 2
  /\ exists p',
       run [LSrvConnect (conn "c2"); LSrvConnect (conn "c3"); LMain None] at_wait
       = Some p'
       /\ status p' = Running /\ main_pc p' = pcLogAllConnected /\ wg p' = 0.
Proof.
  split; [exact run_at_wait|]. do 4 (split; [reflexivity|]).
  exact (barrier_opens waiting_run at_wait [conn "c2"; conn "c3"]
           run_at_wait eq_refl eq_refl eq_refl eq_refl).
Defined.

Lemma string_app_assoc (a b c : string) :
  ((a ++ b) ++ c = a ++ (b ++ c))%string.
Proof. induction a as [|x a IH]; cbn; [reflexivity | now rewrite IH]. Qed.

(** X4: once [main] is past the barrier, any further run of the
    on-connect callback, for whatever connection, takes the counter to
    -1 and ends the process by the panic of [wg.Add]; before that the
    callback has logged the connection, in one info line that names its
    id, its info and its transport, and has set its four hooks. *)
Theorem connection_after_barrier_panics (ls : list Label) (p : Proc) (c : SrvClient) :
  run ls init = Some p ->
  status p = Running -> past_barrier (main_pc p) = true -> is_serving p = true ->
  exists p',
    step (LSrvConnect c) p = Some p'
    /\ status p' = Crashed "sync: negative WaitGroup counter"
    /\ wg p' = -1
    /\ logs p'
       = (logs p
          ++ [mkLog InfoLevel
                ("client " ++ ID c ++ " (" ++ Info c ++ ") connected via "
                 ++ Name (transport c) ++ " (" ++ Protocol (transport c)
                 ++ ")")])%list
    /\ srvHooks p' = (srvHooks p ++ hooks_of c)%list
    /\ (forall l, step l p' = None).
Proof.
  intros Hrun Hst Hpast Hsv.
  pose proof (run_barrier _ _ _ _ Hrun barrier_init) as [Hwg _ Hnn Hn].
  specialize (Hnn Hst). specialize (Hn Hpast).
  assert (Hzero : wg p = 0).
  { destruct (main_pc p); try discriminate Hpast; cbn [adds_done] in Hwg; lia. }
  assert (Hreg : onConnectSet p = true).
  { apply (run_registered _ _ Hrun).
    destruct (main_pc p); try discriminate Hpast; reflexivity. }
  unfold step at 1, guard. rewrite Hst, Hsv, Hreg. cbn [andb].
  eexists. split; [reflexivity|].
  unfold exec. blocks. rewrite Hzero. cbn [Z.add Z.ltb Z.compare]. blocks.
  split; [reflexivity|]. split; [now rewrite Hzero|]. split; [|split].
  - unfold who. cbn [String.append]. rewrite !string_app_assoc.
    cbn [String.append]. rewrite !string_app_assoc. reflexivity.
  - unfold hooks_of. now rewrite <- !app_assoc.
  - intros l. apply ended_is_stuck. cbn. discriminate.
Qed.

Lemma connection_after_barrier_panics_witness :
  run startup_run init = Some after_startup
  /\ status after_startup = Running
  /\ past_barrier (main_pc after_startup) = true
  /\ is_serving after_startup = true
  /\ exists p',
       step (LSrvConnect (conn "c0")) after_startup = Some p'
       /\ status p' = Crashed "sync: negative WaitGroup counter"
       /\ logs p'
          = (logs after_startup
             ++ [mkLog InfoLevel "client c0 () connected via websocket (json)"])%list.
Proof.
  split; [exact run_startup|]. do 3 (split; [reflexivity|]).
  destruct (connection_after_barrier_panics startup_run after_startup (conn "c0")
              run_startup eq_refl eq_refl eq_refl)
    as (p' & Hstep & Hcrash & _ & Hlog & _).
  exists p'. split; [exact Hstep|]. split; [exact Hcrash | exact Hlog].
Defined.

(** ** Events that are only logged *)

Lemma run_disconnect : run disconnect_run init = Some after_disconnect.
Proof. vm_compute. reflexivity. Qed.

(** X5: a disconnect of a server-side client, and every event of a client
    or of its subscription other than connected (connecting,
    disconnected, error, message, join, subscription error, publication,
    subscribing, subscribed), appends one info line to the log and does
    nothing else: no call into a library (so no reconnect and no
    resubscribe), no change of the counter, no panic. *)
Theorem other_events_only_log (l : Label) (p p' : Proc) :
  step l p = Some p' -> log_only l = true ->
  exists m : string, p' = info m p.
Proof.
  intros H Hlog.
  assert (Hl : forall o, l <> LMain o) by (destruct l; discriminate).
  other_step H Hl; try discriminate Hlog; eexists; reflexivity.
Qed.

Lemma other_events_only_log_witness :
  step (LClient 0 (EvDisconnected 3000 "connection closed")) after_startup
  = Some after_disconnect
  /\ log_only (LClient 0 (EvDisconnected 3000 "connection closed")) = true
  /\ calls after_disconnect = calls after_startup
  /\ status after_disconnect = Running
  /\ exists m, logs after_disconnect = (logs after_startup ++ [mkLog InfoLevel m])%list.
Proof.
  assert (Hstep : step (LClient 0 (EvDisconnected 3000 "connection closed"))
                       after_startup = Some after_disconnect)
    by (vm_compute; reflexivity).
  split; [exact Hstep|]. split; [reflexivity|].
  destruct (other_events_only_log _ _ _ Hstep eq_refl) as [m Hm].
  rewrite Hm. split; [reflexivity|]. split; [reflexivity|].
  exists m. reflexivity.
Defined.

(** ** The connected handler *)

(** X6: the connected handler panics exactly when [NewSubscription]
    returned a nil subscription.  With a subscription it returns
    normally whatever errors came with it: it has called
    [NewSubscription] and [Subscribe] once each, logged "Connected" and
    one error line per error, and left the counter, [main] and the status
    of the process alone.  With a nil subscription it panics after the
    call of [NewSubscription], before any call of [Subscribe], and the
    clients are as before. *)
Theorem connected_handler_outcome :
  (forall (i : nat) (createErr subscribeErr : option GoError) (p : Proc),
      exists p',
        on_connected i (mkNewSub true createErr) subscribeErr p = (Val tt, p')
        /\ status p' = status p /\ wg p' = wg p /\ main_pc p' = main_pc p
        /\ calls p' = (calls p ++ [CNewSubscription i "com.jtbonhomme.server";
                                   CSubscribe i])%list
        /\ logs p' = (logs p ++ [mkLog InfoLevel "Connected"]
                      ++ error_line "subscription creation error: " createErr
                      ++ error_line "subscription error: " subscribeErr)%list)
  /\ (forall (i : nat) (createErr subscribeErr : option GoError) (p : Proc),
      exists p',
        on_connected i (mkNewSub false createErr) subscribeErr p
        = (Panic nil_dereference, p')
        /\ calls p' = (calls p ++ [CNewSubscription i "com.jtbonhomme.server"])%list
        /\ clients p' = clients p
        /\ logs p' = (logs p ++ [mkLog InfoLevel "Connected"]
                      ++ error_line "subscription creation error: " createErr)%list).
Proof.
  split; intros i createErr subscribeErr p.
  - destruct createErr, subscribeErr; eexists; (split; [reflexivity|]);
      cbn; rewrite <- ?app_assoc; auto.
  - destruct createErr; eexists; (split; [reflexivity|]);
      cbn; rewrite <- ?app_assoc; auto.
Qed.

(** ** Subscriptions *)

(** Every step leaves the subscriptions of the clients with all their
    handlers set and [Subscribe] called: the connected handler sets the
    five handlers and calls [Subscribe] on the subscription it adds, and
    nothing else touches a subscription. *)
Lemma step_ready (l : Label) (p p' : Proc) :
  step l p = Some p' ->
  forallb slot_ready (clients p) = true ->
  forallb slot_ready (clients p') = true.
Proof.
  intros H Hok.
  assert (Hl : (exists o, l = LMain o) \/ forall o, l <> LMain o)
    by (destruct l; try (right; discriminate); left; eexists; reflexivity).
  destruct Hl as [[o ->]|Hl].
  - main_cases H o; try assumption; try reflexivity.
    all: apply forallb_update_at; [reflexivity | assumption].
  - other_step H Hl; try assumption.
    all: rewrite !update_at_compose.
    all: apply forallb_update_at; [|assumption].
    all: intros [?|] Hc; [|reflexivity].
    all: cbn in Hc |- *; exact Hc.
Qed.

Lemma subhooks_eqb_eq (a : list SubHook) :
  subhooks_eqb a all_sub_hooks = true -> a = all_sub_hooks.
Proof.
  unfold subhooks_eqb, all_sub_hooks. intros H.
  apply andb_true_iff in H as [Hlen H].
  do 6 (destruct a as [|? a]; try discriminate Hlen).
  cbn in H.
  repeat match goal with
         | s : SubHook |- _ => destruct s; try discriminate H
         end.
  reflexivity.
Qed.

(** X7: in every run, in the state that any sequence of steps leaves
    behind, every subscription that a client holds has the five handlers
    (join, error, publication, subscribing, subscribed) set, in the order
    of their registration, and [Subscribe] was called on it.  A run of
    the connected handler is one step, so this speaks of the
    subscriptions as a finished handler leaves them, not of the order in
    which the handler works inside. *)
Theorem subscriptions_fully_set_up (ls : list Label) (p : Proc) :
  run ls init = Some p ->
  forall (i : nat) (c : Client) (s : Subscription),
    client_at i p = Some c -> In s (subs c) ->
    subHooks s = [HJoin; HSubError; HPublication; HSubscribing; HSubscribed]
    /\ subscribeCalled s = true.
Proof.
  intros Hrun i c s Hat Hin.
  assert (Hok : forallb slot_ready (clients p) = true)
    by (apply (run_invariant _ step_ready ls init p Hrun); reflexivity).
  unfold client_at in Hat.
  destruct (nth_error (clients p) i) as [[c'|]|] eqn:E; try discriminate.
  injection Hat as ->. apply nth_error_In in E.
  rewrite forallb_forall in Hok. apply Hok in E. cbn [slot_ready] in E.
  rewrite forallb_forall in E. apply E in Hin.
  apply andb_true_iff in Hin as [Hh Hc].
  split; [now apply subhooks_eqb_eq | exact Hc].
Qed.

Lemma subscriptions_fully_set_up_witness :
  run startup_run init = Some after_startup
  /\ exists c s,
       client_at 2 after_startup = Some c /\ In s (subs c)
       /\ subHooks s = [HJoin; HSubError; HPublication; HSubscribing; HSubscribed]
       /\ subscribeCalled s = true.
Proof.
  split; [exact run_startup|].
  eexists. eexists. split; [reflexivity|].
  assert (Hin : In (mkSub "com.jtbonhomme.server" all_sub_hooks true true)
                   (subs (mkClient wsURL "listening-go-client" "0.0.1"
                            [HConnecting; HConnected; HDisconnected; HError; HMessage]
                            [mkSub "com.jtbonhomme.server" all_sub_hooks true true])))
    by (left; reflexivity).
  split; [exact Hin|].
  exact (subscriptions_fully_set_up startup_run after_startup run_startup
           2%nat _ _ eq_refl Hin).
Defined.

(** ** The order of the bootstrap *)

(** Before the listener goroutine is spawned nothing but [main] and the
    delivery of a signal can step: there is no listener, no server-side
    client and no client. *)
Lemma only_main_before_go (l : Label) (p p' : Proc) :
  step l p = Some p' ->
  spawned (listener p) = false -> srvHooks p = [] -> clients p = [] ->
  (exists o, l = LMain o) \/ (exists s, l = LSignal s).
Proof.
  intros H Hlis Hhooks Hcl.
  unfold step in H. destruct (status p); try discriminate.
  destruct l; try (left; eexists; reflexivity); try (right; eexists; reflexivity);
    exfalso; unfold guard, is_serving, has_hook, client_event, client_at in H;
    rewrite ?Hhooks, ?Hcl in H; destruct (listener p); try discriminate Hlis;
    cbn in H; rewrite ?andb_false_r in H; try discriminate H.
  destruct i; discriminate H.
Qed.

Lemma step_boot (l : Label) (p p' : Proc) :
  step l p = Some p' -> boot_inv p -> boot_inv p'.
Proof.
  intros H [Hbefore Hafter].
  pose proof (step_running _ _ _ H) as Hrun.
  destruct (spawned (listener p)) eqn:Hsp.
  - (* the goroutine was spawned: calls are only added *)
    destruct (Hafter eq_refl) as [rest Hrest]. clear Hbefore Hafter.
    assert (Hl : (exists o, l = LMain o) \/ forall o, l <> LMain o)
      by (destruct l; try (right; discriminate); left; eexists; reflexivity).
    destruct Hl as [[o ->]|Hl].
    + main_cases H o; split; blocks; intros Hs;
        try (rewrite Hs in Hsp; discriminate Hsp); try discriminate Hs;
        rewrite Hrest, <- ?app_assoc; eexists; reflexivity.
    + other_step H Hl; split; blocks; intros Hs;
        try (rewrite Hs in Hsp; discriminate Hsp); try discriminate Hs;
        rewrite Hrest, <- ?app_assoc; eexists; reflexivity.
  - (* not yet: only [main] and signals step *)
    destruct (Hbefore eq_refl) as (Hhooks & Hcl & Hpre & Hexact).
    destruct (Hexact Hrun) as [Hgo Hcalls]. clear Hexact Hafter Hbefore.
    destruct (only_main_before_go _ _ _ H Hsp Hhooks Hcl) as [[o ->]|[s ->]].
    + main_cases H o; cbn [before_go boot_progress] in *; try discriminate Hgo;
        split; blocks; intros Hs; try discriminate Hs;
        try (rewrite Hs in Hsp; discriminate Hsp);
        rewrite ?Hcalls; cbn [firstn bootstrap_calls app];
        try (eexists; reflexivity);
        repeat split; auto; try discriminate;
        try (intros _; split; reflexivity);
        try (eexists ?[k]; instantiate (k := 1%nat); reflexivity);
        try (eexists ?[k]; instantiate (k := 2%nat); reflexivity);
        try (eexists ?[k]; instantiate (k := 3%nat); reflexivity);
        try (eexists ?[k]; instantiate (k := 6%nat); reflexivity);
        try (exists 0%nat; reflexivity).
    + unfold step in H. rewrite Hrun in H. injection H as <-.
      unfold deliver.
      destruct (existsb (signal_eqb s) (notified p));
        [destruct (interrupt p) as [[|]|]|];
        split; blocks; intros Hs; try (rewrite Hs in Hsp; discriminate Hsp);
        repeat split; auto; try discriminate.
Qed.

(** X8: the trace of calls (which leaves out the logger: its set-up in
    lines 24-30 and every line logged) always starts, in this order, with
    [centrifuge.New], [node.OnConnect], [node.Run], [NewWebsocketHandler]
    with a read buffer of 1024, the registration of the websocket route
    behind [auth], the registration at the root of the file server of
    ./public, and the [go] statement.  Until the listener goroutine is
    spawned the trace is a prefix of these seven, no hook is set for any
    connection and there is no client; from then on the trace begins
    with the seven.  So the on-connect callback and both routes are
    registered before the listener starts, hence before any request or
    connection is handled. *)
Theorem bootstrap_in_order (ls : list Label) (p : Proc) :
  run ls init = Some p ->
  (listener p = LisNone ->
     (exists k, calls p = firstn k bootstrap_calls)
     /\ srvHooks p = [] /\ clients p = [])
  /\ (listener p <> LisNone ->
      exists rest, calls p = (bootstrap_calls ++ rest)%list).
Proof.
  intros Hrun.
  assert (Hinv : boot_inv p).
  { apply (run_invariant boot_inv step_boot ls init p Hrun).
    split; cbn; intros; try discriminate.
    repeat split; auto. exists 0%nat. reflexivity. }
  destruct Hinv as [Hbefore Hafter]. split.
  - intros Hlis. rewrite Hlis in Hbefore.
    destruct (Hbefore eq_refl) as (Hh & Hc & Hk & _). auto.
  - intros Hlis. apply Hafter. destruct (listener p); [congruence| |]; reflexivity.
Qed.

Lemma bootstrap_in_order_witness :
  run startup_run init = Some after_startup
  /\ listener after_startup <> LisNone
  /\ exists rest, calls after_startup = (bootstrap_calls ++ rest)%list.
Proof.
  split; [exact run_startup|]. split; [discriminate|].
  exact (proj2 (bootstrap_in_order startup_run after_startup run_startup)
           ltac:(discriminate)).
Defined.

(** ** How the process ends *)

(** X9: until [main] has called [signal.Notify], which it does only
    after [wg.Wait()] has returned, no signal is relayed to the program:
    a signal delivered to the running process then ends it by its
    default disposition, with nothing logged and no step afterwards. *)
Theorem signal_before_notify_kills (ls : list Label) (p : Proc) (s : Signal) :
  run ls init = Some p ->
  status p = Running -> handler_installed (main_pc p) = false ->
  notified p = [] /\ interrupt p = None
  /\ exists p',
       step (LSignal s) p = Some p'
       /\ status p' = Killed s /\ logs p' = logs p /\ calls p' = calls p
       /\ forall l, step l p' = None.
Proof.
  intros Hrun Hst Hpc.
  pose proof (run_signal_inv _ _ _ Hrun signal_init) as [Hbefore _].
  destruct (Hbefore Hpc) as [Hnot Hint].
  split; [exact Hnot|]. split; [exact Hint|].
  rewrite (step_deliver s p Hst). unfold deliver. rewrite Hnot. cbn [existsb].
  eexists. split; [reflexivity|]. do 3 (split; [reflexivity|]).
  intros l. apply ended_is_stuck. cbn. discriminate.
Qed.

Lemma signal_before_notify_kills_witness :
  run waiting_run init = Some at_wait
  /\ status at_wait = Running /\ handler_installed (main_pc at_wait) = false
  /\ exists p',
       step (LSignal SIGINT) at_wait = Some p'
       /\ status p' = Killed SIGINT /\ logs p' = logs at_wait.
Proof.
  split; [exact run_at_wait|]. split; [reflexivity|]. split; [reflexivity|].
  destruct (signal_before_notify_kills waiting_run at_wait SIGINT
              run_at_wait eq_refl eq_refl)
    as (_ & _ & p' & Hstep & Hk & Hl & _).
  exists p'. auto.
Defined.

Lemma step_ending (l : Label) (h : list Label) (p p' : Proc) :
  step l p = Some p' -> signal_inv p -> ending_inv h p ->
  ending_inv (h ++ [l]) p'.
Proof.
  intros H [Sbefore Safter] [Hseen Hkilled Hexited].
  pose proof (step_running _ _ _ H) as Hrun.
  assert (Hold : signal_seen p = true ->
                 exists s, In (LSignal s) (h ++ [l]) /\ is_term_signal s).
  { intros Hs. destruct (Hseen Hs) as (s & Hin & Ht).
    exists s. split; [apply in_or_app; now left | exact Ht]. }
  assert (Hl : (exists o, l = LMain o) \/ forall o, l <> LMain o)
    by (destruct l; try (right; discriminate); left; eexists; reflexivity).
  destruct Hl as [[o ->]|Hl].
  - unfold signal_seen in *.
    main_cases H o; split; unfold signal_seen; blocks;
      repeat match goal with E : main_pc _ = _ |- _ => rewrite E in * end;
      repeat match goal with E : interrupt _ = _ |- _ => rewrite E in * end;
      try (intros ? Hk; rewrite Hrun in Hk; discriminate Hk);
      try (intros ? Hk; discriminate Hk);
      try (intros Hk; rewrite Hrun in Hk; discriminate Hk);
      try (intros Hk; discriminate Hk);
      try (intros _; reflexivity);
      try (intros _; apply Hold; reflexivity);
      try exact Hold.
    all: intros Hs; apply Hold; destruct l; try discriminate Hs; reflexivity.
  - destruct (step_other_signal _ _ _ H Hl) as (Hpc & Hnot & Hint).
    assert (Hstat : status p' = Running \/ (exists v, status p' = Crashed v)
                    \/ (exists s, l = LSignal s /\ status p' = Killed s
                                  /\ existsb (signal_eqb s) (notified p) = false)).
    { clear - H Hl Hrun. other_step H Hl; auto;
        try (right; left; eexists; reflexivity).
      right; right; eexists; repeat split; assumption. }
    split.
    + unfold signal_seen. rewrite Hpc.
      destruct Hint as [Hint|(s & -> & Hex & Hemp & Hnew)].
      * rewrite Hint. exact Hold.
      * intros _. exists s. split; [apply in_or_app; right; now left|].
        destruct (handler_installed (main_pc p)) eqn:Hh.
        -- destruct (Safter eq_refl) as [Hn _]. rewrite Hn in Hex.
           now apply notified_term.
        -- destruct (Sbefore eq_refl) as [Hn _]. rewrite Hn in Hex.
           discriminate Hex.
    + intros s Hk.
      destruct Hstat as [Hs|[[v Hs]|(s0 & -> & Hs & Hex)]];
        try (rewrite Hs in Hk; discriminate Hk).
      rewrite Hs in Hk. injection Hk as ->.
      split; [apply in_or_app; right; now left|].
      rewrite Hpc. intros Hh.
      destruct (Safter Hh) as [Hn _]. rewrite Hn in Hex.
      destruct s; [reflexivity | discriminate Hex | discriminate Hex].
    + intros He.
      destruct Hstat as [Hs|[[v Hs]|(s0 & _ & Hs & _)]];
        rewrite Hs in He; discriminate He.
Qed.

Lemma run_ending (ls : list Label) :
  forall (h : list Label) (p p' : Proc),
    run ls p = Some p' -> signal_inv p -> ending_inv h p ->
    ending_inv (h ++ ls) p'.
Proof.
  induction ls as [|l ls IH]; intros h p p' Hrun Hsig Hend.
  - injection Hrun as <-. now rewrite app_nil_r.
  - cbn [run] in Hrun. destruct (step l p) as [q|] eqn:Hstep; [|discriminate].
    replace (h ++ l :: ls)%list with ((h ++ [l]) ++ ls)%list
      by (now rewrite <- app_assoc).
    eapply IH; [eassumption | |].
    + eapply step_signal_inv; eassumption.
    + eapply step_ending; eassumption.
Qed.

Lemma run_exit : run exit_run init = Some after_exit.
Proof. vm_compute. reflexivity. Qed.

(** X10: a process that has returned from [main] was delivered SIGINT or
    SIGTERM in the run: nothing else lets [main] return.  A process
    ended by the default disposition of a signal was delivered that
    signal, and once [signal.Notify] has been called that signal can only
    be one that was not asked for (SIGHUP). *)
Theorem how_the_process_ends (ls : list Label) (p : Proc) :
  run ls init = Some p ->
  (status p = Exited ->
   main_pc p = pcReturned
   /\ exists s, In (LSignal s) ls /\ is_term_signal s)
  /\ (forall s, status p = Killed s ->
      In (LSignal s) ls
      /\ (handler_installed (main_pc p) = true -> s = SIGHUP)).
Proof.
  intros Hrun.
  assert (Hinv : ending_inv ([] ++ ls) p).
  { apply (run_ending ls [] init p Hrun signal_init).
    split; cbn; intros; discriminate. }
  cbn [app] in Hinv. destruct Hinv as [Hseen Hkilled Hexited].
  split; [|exact Hkilled].
  intros He. pose proof (Hexited He) as Hpc. split; [exact Hpc|].
  apply Hseen. unfold signal_seen. rewrite Hpc.
  now destruct (interrupt p) as [[|]|].
Qed.

Lemma how_the_process_ends_witness :
  run exit_run init = Some after_exit
  /\ status after_exit = Exited
  /\ exists s, In (LSignal s) exit_run /\ is_term_signal s.
Proof.
  split; [exact run_exit|]. split; [reflexivity|].
  exact (proj2 (proj1 (how_the_process_ends exit_run after_exit run_exit) eq_refl)).
Defined.

(** ** A panicking step and its cause *)

Lemma run_fifth : run fifth_connection_run init = Some after_fifth.
Proof. vm_compute. reflexivity. Qed.

Lemma abort_causes_witness :
  run startup_run init = Some after_startup
  /\ step (LSrvConnect (conn "browser")) after_startup = Some after_fifth
  /\ status after_fifth = Crashed "sync: negative WaitGroup counter"
  /\ abort_cause (LSrvConnect (conn "browser")) after_startup.
Proof.
  assert (Hstep : step (LSrvConnect (conn "browser")) after_startup = Some after_fifth)
    by (vm_compute; reflexivity).
  split; [exact run_startup|]. split; [exact Hstep|]. split; [reflexivity|].
  exact (abort_causes startup_run after_startup after_fifth _ _
           run_startup Hstep eq_refl).
Defined.

(** ** The lines that [main] logs *)

Lemma main_lines_app (a b : list LogEntry) :
  main_lines (a ++ b) = (main_lines a ++ main_lines b)%list.
Proof. apply flat_map_app. Qed.

(** Rewrite the lines of a log that grew by literal entries. *)
Ltac lines :=
  rewrite ?main_lines_app;
  cbn [main_lines flat_map main_line level message starts_with String.append
       String.eqb Ascii.eqb Bool.eqb andb app who];
  rewrite ?app_nil_r.

(** Only [main] writes lines of [main]: no line of a hook or of the
    listener goroutine reads like one. *)
Lemma step_other_lines (l : Label) (p p' : Proc) :
  step l p = Some p' -> (forall o, l <> LMain o) ->
  main_pc p' = main_pc p /\ main_lines (logs p') = main_lines (logs p).
Proof.
  intros H Hl. other_step H Hl; split; try reflexivity; now lines.
Qed.

Lemma firstn_snoc_create (i : nat) :
  (i < 4)%nat ->
  (firstn i expected_lines ++ [LnCreate])%list = firstn (S i) expected_lines.
Proof.
  intros Hi. destruct i as [|[|[|[|i]]]]; try lia; reflexivity.
Qed.

Lemma step_main_lines (o : option GoError) (p p' : Proc) :
  step (LMain o) p = Some p' -> lines_inv p -> lines_inv p'.
Proof.
  intros H [Hpc Hrun Hpre].
  pose proof (Hrun (or_introl (step_running _ _ _ H))) as Hl.
  main_cases H o; bools; cbn [pc_ok line_progress past_barrier loop_done] in *;
    split; blocks;
    repeat match goal with E : main_pc _ = _ |- _ => rewrite E end;
    cbn [pc_ok line_progress past_barrier loop_done]; try tauto; try lia;
    try (intros [Hs|Hp]; try discriminate);
    lines; rewrite ?Hl;
    try reflexivity; try (eexists; reflexivity).
  all: try (rewrite firstn_snoc_create by assumption;
            first [reflexivity | eexists; reflexivity]).
  all: try (replace i with 4%nat by lia; reflexivity).
  all: try (exists 4%nat; replace i with 4%nat by lia; reflexivity).
  all: first [ exists 5%nat; reflexivity | exists 6%nat; reflexivity
             | exists 7%nat; reflexivity | exists 8%nat; reflexivity ].
Qed.

Lemma step_lines (l : Label) (p p' : Proc) :
  step l p = Some p' -> lines_inv p -> lines_inv p'.
Proof.
  intros H Hinv.
  destruct l as [o| | | | | | | | | | |];
    try (eapply step_main_lines; eassumption).
  all: destruct (step_other_lines _ _ _ H) as (Hpc & Hlines); [discriminate|].
  all: destruct Hinv as [Ipc Irun Ipre].
  all: split; rewrite ?Hpc, ?Hlines; auto.
  all: intros _; apply Irun; left; eapply step_running; eassumption.
Qed.

(** X11: in the log of every run, the info lines of [main] itself come in
    program order and no more often than the program has them: up to
    four "create player", then "waiting for all clients to connected",
    then "all client  connected", then "received signal: ...", then
    "exit".  While the process runs, and from the end of the loop on,
    their number is fixed by where [main] is; in particular a process
    that returned from [main] logged all eight. *)
Theorem main_lines_in_order (ls : list Label) (p : Proc) :
  run ls init = Some p ->
  (exists k, main_lines (logs p) = firstn k expected_lines)
  /\ (status p = Running \/ loop_done (main_pc p) = true ->
      main_lines (logs p) = firstn (line_progress (main_pc p)) expected_lines)
  /\ (status p = Exited -> main_lines (logs p) = expected_lines).
Proof.
  intros Hrun.
  assert (Hinv : lines_inv p).
  { apply (run_invariant lines_inv step_lines ls init p Hrun).
    split; cbn; auto. exists 0%nat. reflexivity. }
  destruct Hinv as [_ Hexact Hpre].
  split; [exact Hpre|]. split; [exact Hexact|].
  intros He.
  assert (Hpc : main_pc p = pcReturned).
  { assert (Hend : ending_inv ([] ++ ls) p).
    { apply (run_ending ls [] init p Hrun signal_init).
      split; cbn; intros; discriminate. }
    apply (en_exited _ _ Hend He). }
  rewrite Hexact by (right; now rewrite Hpc). now rewrite Hpc.
Qed.

Lemma main_lines_in_order_witness :
  run exit_run init = Some after_exit
  /\ status after_exit = Exited
  /\ main_lines (logs after_exit) = expected_lines.
Proof.
  split; [exact run_exit|]. split; [reflexivity|].
  exact (proj2 (proj2 (main_lines_in_order exit_run after_exit run_exit)) eq_refl).
Defined.

(** ** The calls that [main] makes *)

Ltac main_calls_filter :=
  rewrite ?filter_app; cbn [filter is_main_call Z.ltb Z.compare];
  rewrite ?app_nil_r.

(** No hook and no goroutine makes a call of [main]. *)
Lemma step_other_main_calls (l : Label) (p p' : Proc) :
  step l p = Some p' -> (forall o, l <> LMain o) ->
  main_pc p' = main_pc p
  /\ filter is_main_call (calls p') = filter is_main_call (calls p).
Proof.
  intros H Hl. other_step H Hl; split; try reflexivity; now main_calls_filter.
Qed.

(** Close a goal on a prefix of [main_call_trace] that depends on the
    index [i < 4] of the loop. *)
Ltac by_index i :=
  destruct i as [|[|[|[|i]]]]; try lia;
  first [ reflexivity | eexists; reflexivity ].

Lemma step_main_main_calls (o : option GoError) (p p' : Proc) :
  step (LMain o) p = Some p' -> main_calls_inv p -> main_calls_inv p'.
Proof.
  intros H [Hpc Hrun Hpre].
  pose proof (Hrun (or_introl (step_running _ _ _ H))) as Hc.
  main_cases H o; bools;
    cbn [pc_ok call_progress boot_progress past_barrier loop_done] in *;
    split; blocks;
    repeat match goal with E : main_pc _ = _ |- _ => rewrite E end;
    cbn [pc_ok call_progress boot_progress past_barrier loop_done];
    try tauto; try lia;
    try (intros [Hs|Hp]; try discriminate);
    main_calls_filter; rewrite ?Hc;
    try reflexivity.
  all: try match goal with
       | |- exists k, (firstn ?a _ ++ ?l)%list = _ =>
           exists (a + length l)%nat
       | |- exists k, firstn ?a _ = _ => exists a
       end.
  all: try reflexivity.
  all: try (replace i with 4%nat by lia; reflexivity).
  all: try match goal with j : nat |- _ => by_index j end.
  all: exists 6%nat; reflexivity.
Qed.

Lemma step_main_calls_inv (l : Label) (p p' : Proc) :
  step l p = Some p' -> main_calls_inv p -> main_calls_inv p'.
Proof.
  intros H Hinv.
  destruct l as [o| | | | | | | | | | |];
    try (eapply step_main_main_calls; eassumption).
  all: destruct (step_other_main_calls _ _ _ H) as (Hpc & Hcalls); [discriminate|].
  all: destruct Hinv as [Ipc Irun Ipre].
  all: split; rewrite ?Hpc, ?Hcalls; auto.
  all: intros _; apply Irun; left; eapply step_running; eassumption.
Qed.

Lemma Forall_update_at {A} (P : A -> Prop) (f : A -> A) (i : nat) (l : list A) :
  (forall x, P x -> P (f x)) -> Forall P l -> Forall P (update_at i f l).
Proof.
  intros Hf H. revert i.
  induction H as [|x t Hx Ht IH]; intros [|i]; cbn [update_at];
    constructor; auto.
Qed.

(** Every client of the slice carries the handlers that [newClient]
    registered, and nothing takes one away or adds one. *)
Lemma step_hooked (l : Label) (p p' : Proc) :
  step l p = Some p' ->
  Forall slot_hooked (clients p) -> Forall slot_hooked (clients p').
Proof.
  intros H Hok.
  assert (Hl : (exists o, l = LMain o) \/ forall o, l <> LMain o)
    by (destruct l; try (right; discriminate); left; eexists; reflexivity).
  destruct Hl as [[o ->]|Hl].
  - main_cases H o; try assumption; try (repeat constructor).
    all: apply Forall_update_at; [reflexivity | assumption].
  - other_step H Hl; try assumption.
    all: rewrite !update_at_compose.
    all: apply Forall_update_at; [|assumption].
    all: intros [?|] Hc; [|exact I].
    all: cbn in Hc |- *; exact Hc.
Qed.

(** X12: in every run, the entries of the trace of calls that are made
    by [main] itself (and by [newClient], which it calls) are a prefix of
    this sequence, in program order: the seven calls of the bootstrap;
    then, for each client 0 to 3, [NewJsonClient], [wg.Add(1)] and
    [Connect]; then [wg.Wait] and [signal.Notify] for SIGINT and SIGTERM.
    While the process runs, and from the end of the loop on, how far
    [main] is into the sequence is fixed by where it stands.  The trace
    leaves out the logger and the registrations of handlers on a client;
    of the latter the theorem says that every client of the slice
    carries the five handlers that [newClient] registers, in the order of
    registration. *)
Theorem main_calls_in_order (ls : list Label) (p : Proc) :
  run ls init = Some p ->
  (exists k, filter is_main_call (calls p) = firstn k main_call_trace)
  /\ (status p = Running \/ loop_done (main_pc p) = true ->
      filter is_main_call (calls p)
      = firstn (call_progress (main_pc p)) main_call_trace)
  /\ (forall i c, client_at i p = Some c ->
        hooks c = [HConnecting; HConnected; HDisconnected; HError; HMessage]).
Proof.
  intros Hrun.
  assert (Hinv : main_calls_inv p).
  { apply (run_invariant main_calls_inv step_main_calls_inv ls init p Hrun).
    split; cbn; auto. exists 0%nat. reflexivity. }
  assert (Hhooked : Forall slot_hooked (clients p))
    by (apply (run_invariant _ step_hooked ls init p Hrun); constructor).
  destruct Hinv as [_ Hexact [k Hk]].
  split; [exists k; exact Hk|]. split; [exact Hexact|].
  intros i c Hat. unfold client_at in Hat.
  destruct (nth_error (clients p) i) as [[c'|]|] eqn:E; try discriminate.
  injection Hat as ->. apply nth_error_In in E.
  rewrite Forall_forall in Hhooked. exact (Hhooked _ E).
Qed.

Lemma main_calls_in_order_witness :
  run startup_run init = Some after_startup
  /\ loop_done (main_pc after_startup) = true
  /\ filter is_main_call (calls after_startup) = main_call_trace.
Proof.
  split; [exact run_startup|]. split; [reflexivity|].
  exact (proj1 (proj2 (main_calls_in_order startup_run after_startup run_startup))
           (or_intror eq_refl)).
Defined.

(** ** Panic-level log entries *)

Ltac no_panic_entry Hin Hold :=
  repeat (apply in_app_or in Hin; destruct Hin as [Hin|Hin]);
  try (destruct Hin as [Hin|[]]; discriminate Hin);
  try (exfalso; exact (Hold _ Hin)).

Lemma step_panic_logged (l : Label) (p p' : Proc) :
  step l p = Some p' -> panic_logged_at_connect p -> panic_logged_at_connect p'.
Proof.
  intros H Hinv.
  pose proof (step_running _ _ _ H) as Hrun.
  assert (Hold : forall m, ~ In (mkLog PanicLevel m) (logs p)).
  { intros m Hin. destruct (Hinv m Hin) as [Hs _]. congruence. }
  clear Hinv. unfold panic_logged_at_connect.
  assert (Hl : (exists o, l = LMain o) \/ forall o, l <> LMain o)
    by (destruct l; try (right; discriminate); left; eexists; reflexivity).
  destruct Hl as [[o ->]|Hl].
  - main_cases H o; intros m Hin; no_panic_entry Hin Hold.
    destruct Hin as [Hin|[]]. injection Hin as <-.
    split; [reflexivity | eexists; eassumption].
  - other_step H Hl; intros m Hin; no_panic_entry Hin Hold.
Qed.

Lemma run_connect_failure :
  run connect_failure_run init = Some after_connect_failure.
Proof. vm_compute. reflexivity. Qed.

(** X13: a panic-level entry is in the log only when a client's
    [Connect] of the loop failed: the process was then ended by a panic
    with the message of that entry, [main] stands at that [Connect], and
    so it never reached [wg.Wait()], let alone got past it. *)
Theorem panic_entry_means_failed_connect (ls : list Label) (p : Proc) (m : string) :
  run ls init = Some p -> In (mkLog PanicLevel m) (logs p) ->
  status p = Crashed m
  /\ (exists i, main_pc p = pcLoopConnect i /\ (i < 4)%nat)
  /\ loop_done (main_pc p) = false.
Proof.
  intros Hrun Hin.
  assert (Hinv : panic_logged_at_connect p).
  { apply (run_invariant _ step_panic_logged ls init p Hrun).
    intros m' []. }
  destruct (Hinv m Hin) as [Hs [i Hi]].
  pose proof (run_barrier _ _ _ _ Hrun barrier_init) as [_ Hpc _ _].
  rewrite Hi in Hpc. cbn [pc_ok] in Hpc.
  split; [exact Hs|]. split; [exists i; auto|]. now rewrite Hi.
Qed.

Lemma panic_entry_means_failed_connect_witness :
  run connect_failure_run init = Some after_connect_failure
  /\ In (mkLog PanicLevel "connect client 0 error: connection refused")
        (logs after_connect_failure)
  /\ status after_connect_failure
     = Crashed "connect client 0 error: connection refused"
  /\ loop_done (main_pc after_connect_failure) = false.
Proof.
  assert (Hin : In (mkLog PanicLevel "connect client 0 error: connection refused")
                   (logs after_connect_failure))
    by (vm_compute; tauto).
  split; [exact run_connect_failure|]. split; [exact Hin|].
  destruct (panic_entry_means_failed_connect connect_failure_run
              after_connect_failure _ run_connect_failure Hin)
    as (Hs & _ & Hd).
  split; [exact Hs | exact Hd].
Defined.
